(** * log_template: a shallow embedding of [log_template.py]

    The module is a thin configuration layer over Python's [logging]
    package.  The development has three layers:

    - [PyStr] and [PosixPath]: the [str] methods and [os.path] functions
      the module calls, on byte strings;
    - [Logging]: the part of the [logging] package the module drives
      (level tables, the logger registry, handlers, record emission);
    - [LogTemplate]: the module itself, function by function.

    Python exceptions are values of [result]; the process-wide logger
    registry is an explicit state that every operation threads, and a
    call that can raise after it has changed the registry returns the
    registry beside its result.  What the module needs of the file
    system, and the line interpolation of [logging.Formatter], are
    parameters. *)

From Stdlib Require Import ZArith String Ascii List Lia Bool.
From stdpp Require Import base strings gmap list.

Open Scope string_scope.
Open Scope Z_scope.

(** ** Exceptions *)

Inductive exn : Set :=
  | ValueError
  | TypeError
  | IndexError
  | AttributeError
  | OSError.

Inductive result (A : Type) : Type :=
  | Ok (a : A)
  | Raise (e : exn).

Arguments Ok {A} a.
Arguments Raise {A} e.

#[global] Instance result_ret : MRet result := @Ok.

#[global] Instance result_bind : MBind result :=
  fun A B (k : A -> result B) (r : result A) =>
    match r with
    | Ok a => k a
    | Raise e => Raise e
    end.

Definition raises {A : Type} (r : result A) : Prop :=
  exists e, r = Raise e.

Definition returns {A : Type} (r : result A) : Prop :=
  exists a, r = Ok a.

(** ** [str] methods *)

Module PyStr.

Definition dot : ascii := "."%char.
Definition slash : ascii := "/"%char.

(** Strings are sequences of 8-bit characters.  [c.upper()] on one
    character: the letters a..z move to A..Z. *)
Definition upper_char (c : ascii) : ascii :=
  let n := nat_of_ascii c in
  if ((97 <=? n) && (n <=? 122))%nat then ascii_of_nat (n - 32) else c.

(** [s.upper()] *)
Fixpoint upper (s : string) : string :=
  match s with
  | EmptyString => EmptyString
  | String c r => String (upper_char c) (upper r)
  end.

(** [s.split('.')]: one field per separator, plus one; never empty. *)
Fixpoint split_dot (s : string) : list string :=
  match s with
  | EmptyString => [EmptyString]
  | String c r =>
      if Ascii.eqb c dot then EmptyString :: split_dot r
      else match split_dot r with
           | h :: t => String c h :: t
           | [] => [String c EmptyString]
           end
  end.

(** ['.'.join(l)] *)
Fixpoint join_dot (l : list string) : string :=
  match l with
  | [] => EmptyString
  | [x] => x
  | x :: r => x ++ String dot (join_dot r)
  end.

(** [l[-1]] *)
Definition last_item {A : Type} (l : list A) : result A :=
  match last l with
  | Some x => Ok x
  | None => Raise IndexError
  end.

(** [l[0:-1]] *)
Definition but_last {A : Type} (l : list A) : list A :=
  take (length l - 1)%nat l.

(** [x[0]] on a string, as a one-character string. *)
Definition first_char (x : string) : result string :=
  match x with
  | EmptyString => Raise IndexError
  | String c _ => Ok (String c EmptyString)
  end.

(** [[f(x) for x in l]] where [f] may raise. *)
Fixpoint comprehension {A B : Type} (f : A -> result B) (l : list A)
  : result (list B) :=
  match l with
  | [] => Ok []
  | x :: r => y ← f x; ys ← comprehension f r; Ok (y :: ys)
  end.

(** [s.startswith(p)] *)
Fixpoint startswith (s p : string) {struct p} : bool :=
  match p, s with
  | EmptyString, _ => true
  | String _ _, EmptyString => false
  | String a p', String b s' => Ascii.eqb a b && startswith s' p'
  end.

(** [s[n:]] and [s[:n]] for [n >= 0] *)
Fixpoint drop_str (n : nat) (s : string) : string :=
  match n, s with
  | O, _ => s
  | S _, EmptyString => EmptyString
  | S k, String _ r => drop_str k r
  end.

Fixpoint take_str (n : nat) (s : string) : string :=
  match n, s with
  | O, _ => EmptyString
  | S _, EmptyString => EmptyString
  | S k, String c r => String c (take_str k r)
  end.

(** [s.endswith(p)] *)
Definition endswith (s p : string) : bool :=
  (String.length p <=? String.length s)%nat
  && String.eqb (drop_str (String.length s - String.length p) s) p.

(** [s[:-n]] for [n > 0] *)
Definition drop_last (n : nat) (s : string) : string :=
  take_str (String.length s - n) s.

(** [s.replace('/', '.')] *)
Fixpoint replace_slash (s : string) : string :=
  match s with
  | EmptyString => EmptyString
  | String c r =>
      String (if Ascii.eqb c slash then dot else c) (replace_slash r)
  end.

Definition strip_set (c : ascii) : bool :=
  Ascii.eqb c slash || Ascii.eqb c dot.

(** [s.lstrip('/.')] *)
Fixpoint lstrip (s : string) : string :=
  match s with
  | EmptyString => EmptyString
  | String c r => if strip_set c then lstrip r else s
  end.

(** [s.rstrip('/.')] *)
Fixpoint rstrip (s : string) : string :=
  match s with
  | EmptyString => EmptyString
  | String c r =>
      match rstrip r with
      | EmptyString => if strip_set c then EmptyString
                       else String c EmptyString
      | r' => String c r'
      end
  end.

(** [s.strip('/.')] *)
Definition strip (s : string) : string := rstrip (lstrip s).

(** [tmpl.format(name=name)] for a template whose only replacement
    field is [{name}] and which has no other brace: every occurrence
    of the field is replaced.  [skip] counts the characters of a field
    still to be passed over. *)
Fixpoint format_name (skip : nat) (name tmpl : string) : string :=
  match tmpl with
  | EmptyString => EmptyString
  | String c r =>
      match skip with
      | S k => format_name k name r
      | O =>
          if startswith tmpl "{name}"
          then name ++ format_name 5 name r
          else String c (format_name 0 name r)
      end
  end.

End PyStr.

(** ** [os.path] (POSIX flavour) *)

Module PosixPath.

Import PyStr.

(** One step of [posixpath.join]: an absolute component, or an empty
    path so far, restarts the path; otherwise the component is
    appended after exactly one separator. *)
Definition join2 (path b : string) : string :=
  if startswith b "/" || String.eqb path EmptyString then b
  else if endswith path "/" then path ++ b
  else path ++ "/" ++ b.

(** [os.path.join(a, *p)] *)
Definition join (a : string) (p : list string) : string :=
  fold_left join2 p a.

(** [p[p.rfind('/') + 1:]], computed from the right end. *)
Fixpoint basename (p : string) : string :=
  match p with
  | EmptyString => EmptyString
  | String c r =>
      if existsb (Ascii.eqb slash) (list_ascii_of_string p)
      then basename r
      else p
  end.

End PosixPath.

(** ** Formatter objects

    Handlers carry an instance of one of the module's two formatter
    classes; the instance state is the [name_mode] attribute set by
    [CustomFormatter.__init__]. *)

Inductive formatter_class : Set :=
  | CustomFormatter
  | ColorFormatter.

Record formatter : Set := {
  fmt_class : formatter_class;
  name_mode : string
}.

(** ** The [logging] package

    Levels are integers, [NOTSET] being 0.  The registry holds the root
    logger, the named loggers, the [parent] link of each named logger
    and the [PlaceHolder] entries that [Manager.getLogger] keeps for the
    names that are only prefixes of logger names; [loggerDict] has the
    loggers, [placeholders] the place holders, and a name is in one of
    the two at most.  Handler objects are told apart by an identity
    allocated at construction, as [addHandler] tests membership.
    [logging.disable], [Logger.disabled] and filters, which the module
    never sets, are at their defaults: a logger is enabled for a level
    exactly when the level reaches its effective level. *)

Module Logging.

Import PyStr.

Definition CRITICAL : Z := 50.
Definition ERROR : Z := 40.
Definition WARNING : Z := 30.
Definition INFO : Z := 20.
Definition DEBUG : Z := 10.
Definition NOTSET : Z := 0.

Definition _nameToLevel : gmap string Z :=
  list_to_map
    [ ("CRITICAL", CRITICAL); ("FATAL", CRITICAL); ("ERROR", ERROR);
      ("WARN", WARNING); ("WARNING", WARNING); ("INFO", INFO);
      ("DEBUG", DEBUG); ("NOTSET", NOTSET) ].

(** A level argument is an [int] or a [str]. *)
Inductive level_arg : Set :=
  | LInt (n : Z)
  | LStr (s : string).

(** [logging.getLevelName(level)] at a [str]: no key of
    [_levelToName] is a string, so the first lookup finds nothing;
    a known name gives its number, any other string [s] gives the
    string ["Level s"]. *)
Definition getLevelName (level : string) : level_arg :=
  match _nameToLevel !! level with
  | Some n => LInt n
  | None => LStr ("Level " ++ level)
  end.

(** [logging._checkLevel(level)] *)
Definition _checkLevel (level : level_arg) : result Z :=
  match level with
  | LInt n => Ok n
  | LStr s =>
      match _nameToLevel !! s with
      | Some n => Ok n
      | None => Raise ValueError
      end
  end.

Inductive stream : Set := Stdout | Stderr.

(** What a file handler needs of the file system: [os.path.abspath] in
    the current directory, and whether [open(path, 'a')] succeeds; a
    failure is an [OSError] ([FileNotFoundError], [IsADirectoryError],
    [PermissionError]). *)
Record FileSystem : Type := {
  abspath : string -> string;
  opens : string -> bool
}.

(** The rotation settings of a [TimedRotatingFileHandler].  [extMatch]
    is the pattern that tells the archives to delete; it is kept as the
    date format whose renderings it matches. *)
Record timed_rotation : Set := {
  baseFilename : string;
  when : string;
  interval : Z;
  backupCount : Z;
  suffix : string;
  extMatch : string
}.

Inductive handler_kind : Set :=
  | StreamHandler (s : stream)
  | TimedRotatingFileHandler (t : timed_rotation).

Record Handler : Set := {
  hid : nat;
  kind : handler_kind;
  hformatter : option formatter
}.

Record Logger : Set := {
  level : Z;
  handlers : list Handler;
  propagate : bool
}.

Record LogRecord : Set := {
  name : string;
  levelno : Z;
  msg : string
}.

Inductive logger_ref : Set :=
  | RootLogger
  | Registered (n : string).

Record State : Type := {
  root : Logger;
  loggerDict : gmap string Logger;
  parents : gmap string logger_ref;
  placeholders : gmap string (list string);
  next_hid : nat;
  emitted : list LogRecord
}.

(** [Logger(name)] *)
Definition new_logger : Logger :=
  {| level := NOTSET; handlers := []; propagate := true |}.

(** The registry of a process that has just imported [logging]. *)
Definition initial : State :=
  {| root := {| level := WARNING; handlers := []; propagate := true |};
     loggerDict := ∅; parents := ∅; placeholders := ∅;
     next_hid := 0%nat; emitted := [] |}.

Definition lookup_logger (st : State) (l : logger_ref) : option Logger :=
  match l with
  | RootLogger => Some (root st)
  | Registered n => loggerDict st !! n
  end.

Definition logger_name (l : logger_ref) : string :=
  match l with
  | RootLogger => "root"
  | Registered n => n
  end.

Definition update_logger (f : Logger -> Logger) (l : logger_ref)
    (st : State) : State :=
  match l with
  | RootLogger =>
      {| root := f (root st); loggerDict := loggerDict st;
         parents := parents st; placeholders := placeholders st;
         next_hid := next_hid st; emitted := emitted st |}
  | Registered n =>
      {| root := root st; loggerDict := alter f n (loggerDict st);
         parents := parents st; placeholders := placeholders st;
         next_hid := next_hid st; emitted := emitted st |}
  end.

(** [self.loggerDict[name] = rv] for a new logger [rv]; a place holder
    at [name] is replaced. *)
Definition register (name : string) (st : State) : State :=
  {| root := root st;
     loggerDict := <[name := new_logger]> (loggerDict st);
     parents := parents st;
     placeholders := delete name (placeholders st);
     next_hid := next_hid st; emitted := emitted st |}.

(** [logger.parent = p] for the logger called [name]. *)
Definition set_parent (name : string) (p : logger_ref) (st : State)
  : State :=
  {| root := root st; loggerDict := loggerDict st;
     parents := <[name := p]> (parents st);
     placeholders := placeholders st;
     next_hid := next_hid st; emitted := emitted st |}.

(** [self.loggerDict[substr] = PlaceHolder(alogger)] when [substr] is
    not in the dictionary, [obj.append(alogger)] when a place holder is
    there: the logger joins the place holder unless it is in it. *)
Definition note_child (substr name : string) (st : State) : State :=
  let cs : list string := default [] (placeholders st !! substr) in
  {| root := root st; loggerDict := loggerDict st;
     parents := parents st;
     placeholders :=
       <[substr := if bool_decide (name ∈ cs) then cs
                  else (cs ++ [name])%list]>
         (placeholders st);
     next_hid := next_hid st; emitted := emitted st |}.

(** [name[j] == "."] *)
Definition is_dot_at (name : string) (j : nat) : bool :=
  match String.get j name with
  | Some c => Ascii.eqb c dot
  | None => false
  end.

(** The loop of [Manager._fixupParents], with the search for the dot:
    [hi] bounds the search [i = name.rfind(".", 0, hi)].  No dot, or a
    dot at 0, ends the loop with the root as parent; at a dot [i > 0]
    the prefix [name[:i]] is the parent when it is a logger, and
    otherwise notes the logger in its place holder and the search goes
    on below [i - 1]. *)
Fixpoint _fixupParents_from (name : string) (hi : nat) (st : State)
  : logger_ref * State :=
  match hi with
  | O => (RootLogger, st)
  | S j =>
      if is_dot_at name j then
        match j with
        | O => (RootLogger, st)
        | S j' =>
            let substr := take_str j name in
            match loggerDict st !! substr with
            | Some _ => (Registered substr, st)
            | None => _fixupParents_from name j' (note_child substr name st)
            end
        end
      else _fixupParents_from name j st
  end.

(** [Manager._fixupParents(alogger)] *)
Definition _fixupParents (name : string) (st : State) : State :=
  let '(rv, st1) := _fixupParents_from name (String.length name) st in
  set_parent name rv st1.

(** One turn of the loop of [Manager._fixupChildren]: the child [c]
    moves under the new logger unless the name of its parent starts
    with the name of the new logger. *)
Definition _fixupChild (name : string) (st : State) (c : string)
  : State :=
  match parents st !! c with
  | Some p =>
      if String.eqb (take_str (String.length name) (logger_name p)) name
      then st
      else set_parent c (Registered name) (set_parent name p st)
  | None => st
  end.

(** [Manager._fixupChildren(ph, alogger)] *)
Definition _fixupChildren (children : list string) (name : string)
    (st : State) : State :=
  fold_left (_fixupChild name) children st.

(** [Manager.getLogger(name)] *)
Definition Manager_getLogger (st : State) (name : string)
  : logger_ref * State :=
  match loggerDict st !! name with
  | Some _ => (Registered name, st)
  | None =>
      match placeholders st !! name with
      | Some children =>
          (Registered name,
           _fixupParents name
             (_fixupChildren children name (register name st)))
      | None => (Registered name, _fixupParents name (register name st))
      end
  end.

(** [logging.getLogger(name)]: the empty name and the root's own name
    give the root. *)
Definition getLogger (st : State) (name : string) : logger_ref * State :=
  if String.eqb name EmptyString || String.eqb name "root"
  then (RootLogger, st)
  else Manager_getLogger st name.

(** The logger and the loggers that its [parent] links lead to, as far
    as [fuel] goes. *)
Fixpoint chain_from (fuel : nat) (st : State) (l : logger_ref)
  : list Logger :=
  match fuel with
  | O => []
  | S f =>
      match l with
      | RootLogger => [root st]
      | Registered n =>
          match loggerDict st !! n with
          | Some x =>
              x :: match parents st !! n with
                   | Some p => chain_from f st p
                   | None => []
                   end
          | None => []
          end
      end
  end.

(** The way from a logger to the root.  A parent has a shorter name
    than its child, so the way from a logger has fewer named loggers
    than its name has characters. *)
Definition chain (st : State) (l : logger_ref) : list Logger :=
  chain_from (S (S (String.length (logger_name l)))) st l.

Definition nonempty {A : Type} (l : list A) : bool :=
  match l with [] => false | _ => true end.

(** [Logger.hasHandlers]: the loop over [c = c.parent]. *)
Fixpoint hasHandlers_from (c : list Logger) : bool :=
  match c with
  | [] => false
  | x :: rest =>
      if nonempty (handlers x) then true
      else if negb (propagate x) then false
      else hasHandlers_from rest
  end.

Definition hasHandlers (st : State) (l : logger_ref) : bool :=
  hasHandlers_from (chain st l).

(** [Logger.getEffectiveLevel]: the first non-zero level on the way
    to the root, [NOTSET] when there is none. *)
Fixpoint getEffectiveLevel_from (c : list Logger) : Z :=
  match c with
  | [] => NOTSET
  | x :: rest =>
      if negb (level x =? 0) then level x else getEffectiveLevel_from rest
  end.

Definition getEffectiveLevel (st : State) (l : logger_ref) : Z :=
  getEffectiveLevel_from (chain st l).

(** [Logger.isEnabledFor(level)] *)
Definition isEnabledFor (st : State) (l : logger_ref) (lvl : Z) : bool :=
  match lookup_logger st l with
  | None => false
  | Some _ => lvl >=? getEffectiveLevel st l
  end.

(** [self.level = n] *)
Definition with_level (n : Z) (x : Logger) : Logger :=
  {| level := n; handlers := handlers x; propagate := propagate x |}.

(** [Logger.setLevel(level)] *)
Definition setLevel (st : State) (l : logger_ref) (lvl : level_arg)
  : result State :=
  n ← _checkLevel lvl;
  Ok (update_logger (with_level n) l st).

(** [hdlr in self.handlers] *)
Definition attached (h : Handler) (x : Logger) : bool :=
  existsb (fun h' => Nat.eqb (hid h') (hid h)) (handlers x).

(** [if not (hdlr in self.handlers): self.handlers.append(hdlr)] *)
Definition with_handler (h : Handler) (x : Logger) : Logger :=
  if attached h x then x
  else {| level := level x; handlers := handlers x ++ [h];
          propagate := propagate x |}.

(** [Logger.addHandler(hdlr)] *)
Definition addHandler (st : State) (l : logger_ref) (h : Handler) : State :=
  update_logger (with_handler h) l st.

(** [Logger.warning(msg)]: when the logger is enabled for [WARNING],
    a record is made and handed to [Logger.handle]; [emitted] keeps
    these records in order. *)
Definition warning (st : State) (l : logger_ref) (m : string) : State :=
  if isEnabledFor st l WARNING then
    {| root := root st; loggerDict := loggerDict st;
       parents := parents st; placeholders := placeholders st;
       next_hid := next_hid st;
       emitted := emitted st
                  ++ [{| name := logger_name l; levelno := WARNING;
                         msg := m |}] |}
  else st.

(** The registry once an identity has been handed out. *)
Definition allocate (st : State) : State :=
  {| root := root st; loggerDict := loggerDict st;
     parents := parents st; placeholders := placeholders st;
     next_hid := S (next_hid st); emitted := emitted st |}.

(** Construction of a handler object: a fresh identity, no formatter. *)
Definition new_handler (st : State) (k : handler_kind) : Handler * State :=
  ({| hid := next_hid st; kind := k; hformatter := None |}, allocate st).

(** [Handler.setFormatter(fmt)] *)
Definition setFormatter (h : Handler) (f : formatter) : Handler :=
  {| hid := hid h; kind := kind h; hformatter := Some f |}.

(** [TimedRotatingFileHandler(filename, when=..., backupCount=...)]:
    the file at the absolute path is opened first, and an [OSError]
    leaves no handler; then the rotation interval in seconds, the
    default suffix and the pattern of the archives follow from
    [when.upper()], an unknown [when] being a [ValueError]. *)
Definition TimedRotatingFileHandler_init (fs : FileSystem)
    (filename when : string) (backupCount : Z) : result timed_rotation :=
  let base := abspath fs filename in
  if negb (opens fs base) then Raise OSError
  else
    let w := upper when in
    let mk i sfx :=
      Ok {| baseFilename := base; when := w; interval := i;
            backupCount := backupCount; suffix := sfx; extMatch := sfx |} in
    if String.eqb w "S" then mk 1 "%Y-%m-%d_%H-%M-%S"
    else if String.eqb w "M" then mk 60 "%Y-%m-%d_%H-%M"
    else if String.eqb w "H" then mk 3600 "%Y-%m-%d_%H"
    else if String.eqb w "D" || String.eqb w "MIDNIGHT"
         then mk 86400 "%Y-%m-%d"
    else if startswith w "W" then
      match w with
      | String _ (String d EmptyString) =>
          if ((48 <=? nat_of_ascii d) && (nat_of_ascii d <=? 54))%nat
          then mk 604800 "%Y-%m-%d"
          else Raise ValueError
      | _ => Raise ValueError
      end
    else Raise ValueError.

(** [handler.suffix = s] on a rotating file handler: the suffix of the
    archives to come changes, the pattern of the archives to delete
    does not. *)
Definition set_suffix (h : Handler) (s : string) : Handler :=
  match kind h with
  | StreamHandler _ => h
  | TimedRotatingFileHandler t =>
      {| hid := hid h;
         kind := TimedRotatingFileHandler
                   {| baseFilename := baseFilename t; when := when t;
                      interval := interval t;
                      backupCount := backupCount t; suffix := s;
                      extMatch := extMatch t |};
         hformatter := hformatter h |}
  end.

End Logging.

(** ** The module [log_template] *)

Module LogTemplate.

Import PyStr Logging.

(** [os.getenv(key, default)] *)
Definition getenv (environ : gmap string string) (key dflt : string)
  : string :=
  default dflt (environ !! key).

Definition SYSTEM_LOG_LEVEL : Z := WARNING.

(** *** Formatters *)

Definition format_str : string :=
  "%(asctime)s - {name} - %(levelname)s - %(message)s".

Definition CustomFormatter_FORMATS : gmap Z string :=
  list_to_map
    [ (DEBUG, format_str); (INFO, format_str); (WARNING, format_str);
      (ERROR, format_str); (CRITICAL, format_str) ].

(** The escape character [\x1b]. *)
Definition esc : string := String (ascii_of_nat 27) EmptyString.

Definition white : string := esc ++ "[97m".
Definition grey : string := esc ++ "[38m".
Definition yellow : string := esc ++ "[33m".
Definition red : string := esc ++ "[31m".
Definition bold_red : string := esc ++ "[1;31m".
Definition white_on_red : string := esc ++ "[41;97m".
Definition bold_blue : string := esc ++ "[34;1m".
Definition reset : string := esc ++ "[0m".

Definition ColorFormatter_FORMATS : gmap Z string :=
  list_to_map
    [ (DEBUG, bold_blue ++ format_str ++ reset);
      (INFO, white ++ format_str ++ reset);
      (WARNING, yellow ++ format_str ++ reset);
      (ERROR, red ++ format_str ++ reset);
      (CRITICAL, white_on_red ++ format_str ++ reset) ].

(** [self.FORMATS]: the class attribute of the instance's class. *)
Definition FORMATS (self : formatter) : gmap Z string :=
  match fmt_class self with
  | CustomFormatter => CustomFormatter_FORMATS
  | ColorFormatter => ColorFormatter_FORMATS
  end.

(** [cls(namemode=...)]: [__init__] pops the keyword, ['file'] when it
    is not given. *)
Definition __init__ (cls : formatter_class) (namemode : option string)
  : formatter :=
  {| fmt_class := cls; name_mode := default "file" namemode |}.

Definition _get_name (self : formatter) (record : LogRecord)
  : result string :=
  if String.eqb (name_mode self) "leaf" then
    last_item (split_dot (name record))
  else if String.eqb (name_mode self) "full" then
    Ok (name record)
  else if String.eqb (name_mode self) "short" then
    let names := split_dot (name record) in
    n ← comprehension first_char (but_last names);
    l ← last_item names;
    Ok (join_dot (n ++ [l]))
  else
    Ok (name record).

Section Formatting.

(** [logging.Formatter(fmt).format(record)]: the line interpolation of
    the package, which raises for a line it cannot interpolate. *)
Variable Formatter_format : string -> LogRecord -> result string.

(** [format]: [FORMATS.get] gives [None] for a level that is not a
    key, and [None.format] is an [AttributeError]. *)
Definition format (self : formatter) (record : LogRecord)
  : result string :=
  let log_fmt := FORMATS self !! levelno record in
  name ← _get_name self record;
  log_fmt ← match log_fmt with
            | Some t => Ok (format_name 0 name t)
            | None => Raise AttributeError
            end;
  Formatter_format log_fmt record.

End Formatting.

(** *** Levels *)

Definition quote : string := String (ascii_of_nat 34) EmptyString.

(** ['Unknown log level "%s"' % s] *)
Definition unknown_level_msg (s : string) : string :=
  "Unknown log level " ++ quote ++ s ++ quote.

Section Configured.

(** [os.environ] as it was when the module was imported. *)
Variable import_environ : gmap string string.

Definition DEFAULT_LOG_LEVEL : string :=
  upper (getenv import_environ "DEFAULT_LOG_LEVEL" "INFO").

Definition set_system_log_level (st : State) (log : logger_ref)
  : result State :=
  setLevel st log (LInt SYSTEM_LOG_LEVEL).

Definition set_default_log_level (st : State) (log : logger_ref)
  : result State :=
  if decide (DEFAULT_LOG_LEVEL ∈ dom _nameToLevel) then
    let lvl := getLevelName DEFAULT_LOG_LEVEL in
    setLevel st log lvl
  else
    st1 ← set_system_log_level st log;
    Ok (warning st1 log (unknown_level_msg DEFAULT_LOG_LEVEL)).

Definition set_log_level (st : State) (log : logger_ref)
    (lvl_str : string) : result State :=
  let lvl := getLevelName (upper lvl_str) in
  match setLevel st log lvl with
  | Ok st1 => Ok st1
  | Raise ValueError =>
      st1 ← set_default_log_level st log;
      Ok (warning st1 log (unknown_level_msg (upper lvl_str)))
  | Raise e => Raise e
  end.

(** *** Handlers and the registry *)

Definition get_console_handler (st : State) (namemode : string)
  : Handler * State :=
  let '(handler, st1) := new_handler st (StreamHandler Stdout) in
  (setFormatter handler (__init__ ColorFormatter (Some namemode)), st1).

Definition get_file_handler (fs : FileSystem) (st : State)
    (fname namemode : string) : result (Handler * State) :=
  t ← TimedRotatingFileHandler_init fs fname "midnight" 30;
  let '(handler, st1) := new_handler st (TimedRotatingFileHandler t) in
  let handler := set_suffix handler "%Y%m%d" in
  Ok (setFormatter handler (__init__ ColorFormatter (Some namemode)),
      st1).

(** [init_root_logger]: the result, and the registry it leaves, also
    when the file handler cannot be made. *)
Definition init_root_logger (fs : FileSystem) (st : State)
    (root_name logpath namemode : string) : result unit * State :=
  let '(log, st1) := getLogger st root_name in
  match setLevel st1 log (LInt DEBUG) with
  | Raise e => (Raise e, st1)
  | Ok st2 =>
      let '(console, st3) := get_console_handler st2 namemode in
      let st4 := addHandler st3 log console in
      if negb (String.eqb logpath EmptyString) then
        match get_file_handler fs st4 logpath namemode with
        | Raise e => (Raise e, st4)
        | Ok (file, st5) => (Ok tt, addHandler st5 log file)
        end
      else (Ok tt, st4)
  end.

(** [get_logger]; [environ] is [os.environ] at the time of the call,
    [lvl_env] is [None] or a string, and a string is true when it is
    not empty.  The result comes with the registry that the call
    leaves, also when it raises. *)
Definition get_logger (environ : gmap string string) (fs : FileSystem)
    (st : State) (name lvl_str : string) (lvl_env : option string)
    (root_logger logpath namemode : string)
  : result logger_ref * State :=
  let '(log, st1) := getLogger st name in
  let '(initialised, log, st2) :=
    if negb (hasHandlers st1 log) then
      match init_root_logger fs st1 root_logger logpath namemode with
      | (Raise e, st2) => (Raise e, log, st2)
      | (Ok _, st2) =>
          let '(log, st3) := getLogger st2 name in (Ok tt, log, st3)
      end
    else (Ok tt, log, st1) in
  match initialised with
  | Raise e => (Raise e, st2)
  | Ok _ =>
      let _lvl_str :=
        match lvl_env with
        | Some v =>
            if negb (String.eqb v EmptyString)
            then getenv environ v DEFAULT_LOG_LEVEL
            else lvl_str
        | None => lvl_str
        end in
      match set_log_level st2 log _lvl_str with
      | Ok st3 => (Ok log, st3)
      | Raise e => (Raise e, st2)
      end
  end.

End Configured.

(** *** Names *)

(** A module attribute: absent, or present with a value that may be
    [None]. *)
Inductive attr (A : Type) : Type :=
  | Absent
  | Present (v : option A).

Arguments Absent {A}.
Arguments Present {A} v.

(** [obj.a]: an absent attribute is an [AttributeError]. *)
Definition getattr {A : Type} (a : attr A) : result (option A) :=
  match a with
  | Absent => Raise AttributeError
  | Present v => Ok v
  end.

Record module : Type := {
  __name__ : string;
  __package__ : attr string;
  __file__ : attr string
}.

(** The two kinds of value that meet in the comparison of
    [_get_main_module_name]. *)
Inductive pyval : Set :=
  | PStr (s : string)
  | PTuple (l : list string).

(** [a == b]: a [str] and a [tuple] are never equal. *)
Definition py_eq (a b : pyval) : bool :=
  match a, b with
  | PStr x, PStr y => String.eqb x y
  | PTuple x, PTuple y => bool_decide (x = y)
  | _, _ => false
  end.

(** [os.path.join(...).replace('/', '.').strip('/.')] *)
Definition dotted (a : string) (p : list string) : string :=
  strip (replace_slash (PosixPath.join a p)).

Definition _get_main_module_name (m : module) (prefix : string)
  : result string :=
  package ← getattr (__package__ m);
  let package := default EmptyString package in
  mfname ← getattr (__file__ m);
  match mfname with
  | None => Ok package
  | Some mfname =>
      let fname := PosixPath.basename mfname in
      let ext := ".py" in
      let fname :=
        if endswith fname ext
        then drop_last (String.length ext) fname
        else fname in
      if py_eq (PStr fname) (PTuple ["__init__"; "__main__"])
      then Ok package
      else Ok (dotted prefix [package; fname])
  end.

(** [get_module_name]; [caller] is [inspect.getmodule(stack[1][0])],
    the module of the calling frame, [None] when it has none. *)
Definition get_module_name (caller : option module) (prefix : string)
  : result string :=
  match caller with
  | None => Ok prefix
  | Some m =>
      if negb (String.eqb (__name__ m) "__main__")
      then Ok (dotted prefix [__name__ m])
      else _get_main_module_name m prefix
  end.

End LogTemplate.



(** * Specification vocabulary *)

Import PyStr Logging LogTemplate.

(** A segment of a dotted name: not empty, and without a dot. *)
Fixpoint has_dot (x : string) : bool :=
  match x with
  | EmptyString => false
  | String c r => Ascii.eqb c dot || has_dot r
  end.

Definition segment (x : string) : Prop :=
  x <> EmptyString /\ has_dot x = false.

(** A segment abbreviated to its first character. *)
Definition abbreviated (x : string) : string := take_str 1 x.

(** The five severities that are keys of [FORMATS]. *)
Definition standard_levels : list Z :=
  [DEBUG; INFO; WARNING; ERROR; CRITICAL].

Definition record_named (n : string) (lvl : Z) (m : string) : LogRecord :=
  {| name := n; levelno := lvl; msg := m |}.

Definition with_mode (cls : formatter_class) (mode : string) : formatter :=
  {| fmt_class := cls; name_mode := mode |}.

(** The file stem of [_get_main_module_name]: the base name of the file
    path, without a final [.py]. *)
Definition file_stem (mfname : string) : string :=
  let fname := PosixPath.basename mfname in
  if endswith fname ".py" then drop_last (String.length ".py") fname
  else fname.

(** A stem that no step of the normalisation touches: it starts with a
    character that [strip] keeps, [rstrip] and [replace] leave it
    alone. *)
Definition kept_stem (s : string) : Prop :=
  (exists c r, s = String c r /\ strip_set c = false)
  /\ rstrip s = s /\ replace_slash s = s.

(** The level and the sinks of a handle. *)
Definition level_of (st : State) (l : logger_ref) : option Z :=
  level <$> lookup_logger st l.

Definition sinks (st : State) (l : logger_ref) : option (list Handler) :=
  handlers <$> lookup_logger st l.

(** The records emitted between two states of the registry. *)
Definition new_records (st st' : State) : list LogRecord :=
  drop (length (emitted st)) (emitted st').

(** The five severities, by name. *)
Definition severities : list (string * Z) :=
  [ ("DEBUG", DEBUG); ("INFO", INFO); ("WARNING", WARNING);
    ("ERROR", ERROR); ("CRITICAL", CRITICAL) ].

(** The level that a name stands for, in the spellings that the
    package knows. *)
Definition named_level (s : string) : option Z :=
  if String.eqb s "CRITICAL" || String.eqb s "FATAL" then Some 50
  else if String.eqb s "ERROR" then Some 40
  else if String.eqb s "WARNING" || String.eqb s "WARN" then Some 30
  else if String.eqb s "INFO" then Some 20
  else if String.eqb s "DEBUG" then Some 10
  else if String.eqb s "NOTSET" then Some 0
  else None.

(** The default level name of the environment: the value that the
    variable [DEFAULT_LOG_LEVEL] had at import, ["INFO"] when it was
    not set, in upper case. *)
Definition environment_default (import_environ : gmap string string)
  : string :=
  upper match import_environ !! "DEFAULT_LOG_LEVEL" with
        | Some v => v
        | None => "INFO"
        end.

(** The fallback chain of the level policy: the level that the request
    names, else the level that the default of the environment names,
    else the level 30 of the system. *)
Definition resolved_level (import_environ : gmap string string)
    (lvl_str : string) : Z :=
  match named_level (upper lvl_str) with
  | Some n => n
  | None =>
      match named_level (environment_default import_environ) with
      | Some n => n
      | None => 30
      end
  end.

(** The warning that reports an unknown level on a handle. *)
Definition unknown_level_record (l : logger_ref) (s : string) : LogRecord :=
  {| name := logger_name l; levelno := WARNING;
     msg := unknown_level_msg s |}.

(** Handler identities in use are below the next one to be allocated. *)
Definition fresh_ids (st : State) : Prop :=
  forall l x, lookup_logger st l = Some x ->
    Forall (fun h => (hid h < next_hid st)%nat) (handlers x).

(** The console sink: standard output, colour formatter. *)
Definition console_sink (id : nat) (namemode : string) : Handler :=
  {| hid := id; kind := StreamHandler Stdout;
     hformatter := Some (with_mode ColorFormatter namemode) |}.

(** The file sink: the file at the absolute path, rotation at midnight
    with [backupCount] 30, archives suffixed with the date as [%Y%m%d]
    while the pattern of the archives to delete is still the one of the
    default suffix [%Y-%m-%d], colour formatter. *)
Definition file_sink (fs : FileSystem) (id : nat)
    (logpath namemode : string) : Handler :=
  {| hid := id;
     kind := TimedRotatingFileHandler
               {| baseFilename := abspath fs logpath; when := "MIDNIGHT";
                  interval := 86400; backupCount := 30;
                  suffix := "%Y%m%d"; extMatch := "%Y-%m-%d" |};
     hformatter := Some (with_mode ColorFormatter namemode) |}.

(** Whether root initialisation can make the file sink of [logpath]. *)
Definition file_opens (fs : FileSystem) (logpath : string) : bool :=
  opens fs (abspath fs logpath).


(** The result of root initialisation: an [OSError] when [logpath] is
    not empty and its file does not open. *)
Definition init_result (fs : FileSystem) (logpath : string)
  : result unit :=
  if negb (String.eqb logpath EmptyString) && negb (file_opens fs logpath)
  then Raise OSError else Ok tt.


(** A file system for examples: the current directory is [/srv], and
    the files that open are those under [/srv/logs/] and under
    [/var/log/]. *)
Definition sample_fs : FileSystem :=
  {| abspath := fun p => if startswith p "/" then p else "/srv/" ++ p;
     opens := fun p =>
       startswith p "/srv/logs/" || startswith p "/var/log/" |}.

(** A line interpolation that never fails, for examples. *)
Definition echo_line (fmt : string) (record : LogRecord) : result string :=
  Ok fmt.


(** The loggers noted in a place holder have longer names than it. *)
Definition placeholders_ok (st : State) : Prop :=
  forall k cs c, placeholders st !! k = Some cs -> In c cs ->
    (String.length k < String.length c)%nat.

(** Two registries with the same loggers, identities and records: they
    differ in the [parent] links and the place holders at most. *)
Definition same_loggers (st st' : State) : Prop :=
  root st' = root st /\ loggerDict st' = loggerDict st
  /\ next_hid st' = next_hid st /\ emitted st' = emitted st.

(** Two registries with the same names, [parent] links and place
    holders. *)
Definition same_links (st st' : State) : Prop :=
  parents st' = parents st /\ placeholders st' = placeholders st
  /\ forall n, is_Some (loggerDict st' !! n) <-> is_Some (loggerDict st !! n).

(** What the sink guard of [get_logger] reads of a logger, and of the
    registry. *)
Definition sink_view (x : Logger) : list Handler * bool :=
  (handlers x, propagate x).

Definition wiring (st : State)
  : (list Handler * bool) * gmap string (list Handler * bool) :=
  (sink_view (root st), sink_view <$> loggerDict st).




(** The module object of a process entry point. *)
Definition main_module (package mfname : option string) : module :=
  {| __name__ := "__main__"; __package__ := Present package;
     __file__ := Present mfname |}.

(** The line that [format] hands to the package's formatter: the
    display name between the time and the level, inside an opening and a
    closing code. *)
Definition line_template (opening n closing : string) : string :=
  opening ++ "%(asctime)s - " ++ n ++ " - %(levelname)s - %(message)s"
  ++ closing.

(** The colour code of each standard level. *)
Definition colours : list (Z * string) :=
  [ (DEBUG, bold_blue); (INFO, white); (WARNING, yellow); (ERROR, red);
    (CRITICAL, white_on_red) ].

(** A string with a path separator in it. *)
Definition has_slash (s : string) : bool :=
  existsb (Ascii.eqb slash) (list_ascii_of_string s).

(** A string that [strip] leaves alone. *)
Definition trimmed (s : string) : Prop :=
  lstrip s = s /\ rstrip s = s.

(** A name that the normalisation of module names leaves alone: not
    empty, without separator, without a dot at either end. *)
Definition plain_name (s : string) : Prop :=
  s <> EmptyString /\ has_slash s = false /\ trimmed s.

(** The level string that [get_logger] resolves: the value of the
    variable [lvl_env] when one is named, the module default when that
    variable is unset, and [lvl_str] when no variable is named. *)
Definition requested_level (import_environ environ : gmap string string)
    (lvl_str : string) (lvl_env : option string) : string :=
  match lvl_env with
  | Some v =>
      if String.eqb v EmptyString then lvl_str
      else default (environment_default import_environ) (environ !! v)
  | None => lvl_str
  end.

(** The handle that [logging.getLogger] gives for a name. *)
Definition ref_of (name : string) : logger_ref :=
  if String.eqb name EmptyString || String.eqb name "root" then RootLogger
  else Registered name.

(** The named loggers once [name] has been asked for. *)
Definition known (name : string) (d : gmap string Logger)
  : gmap string Logger :=
  match ref_of name with
  | RootLogger => d
  | Registered n =>
      match d !! n with
      | Some _ => d
      | None => <[n := new_logger]> d
      end
  end.


(** * Display names *)

Section DisplayNames.

Lemma split_dot_nonempty (s : string) : split_dot s <> [].
Proof.
  induction s as [|c r IH]; simpl; [discriminate|].
  destruct (Ascii.eqb c dot); [discriminate|].
  destruct (split_dot r); discriminate.
Qed.

Lemma split_dot_segment (x : string) :
  has_dot x = false -> split_dot x = [x].
Proof.
  induction x as [|c r IH]; simpl; [reflexivity|].
  intros H. apply orb_false_elim in H as [Hc Hr].
  rewrite Hc, (IH Hr). reflexivity.
Qed.

Lemma split_dot_app (x r : string) :
  has_dot x = false ->
  split_dot (x ++ String dot r) = x :: split_dot r.
Proof.
  induction x as [|c x IH]; simpl; [reflexivity|].
  intros H. apply orb_false_elim in H as [Hc Hx].
  rewrite Hc, (IH Hx). reflexivity.
Qed.

Lemma split_join (l : list string) :
  l <> [] -> Forall (fun x => has_dot x = false) l ->
  split_dot (join_dot l) = l.
Proof.
  induction l as [|x l IH]; [congruence|].
  intros _ Hall. apply Forall_cons in Hall as [Hx Hl].
  destruct l as [|y l].
  - simpl. apply split_dot_segment, Hx.
  - change (join_dot (x :: y :: l))
      with (x ++ String dot (join_dot (y :: l))).
    rewrite split_dot_app by exact Hx.
    rewrite IH; [reflexivity|discriminate|exact Hl].
Qed.

Lemma last_item_snoc {A : Type} (l : list A) (x : A) :
  last_item (l ++ [x]) = Ok x.
Proof. unfold last_item. rewrite last_snoc. reflexivity. Qed.

Lemma but_last_snoc {A : Type} (l : list A) (x : A) :
  but_last (l ++ [x]) = l.
Proof.
  unfold but_last. rewrite length_app. simpl.
  replace (length l + 1 - 1)%nat with (length l) by lia.
  apply take_app_length.
Qed.

Lemma comprehension_first_char (l : list string) :
  Forall (fun x => x <> EmptyString) l ->
  comprehension first_char l = Ok (map abbreviated l).
Proof.
  induction l as [|x l IH]; intros Hall; [reflexivity|].
  apply Forall_cons in Hall as [Hx Hl]. simpl.
  destruct x as [|c x]; [congruence|].
  simpl. rewrite (IH Hl). reflexivity.
Qed.

Lemma last_item_split (s : string) : returns (last_item (split_dot s)).
Proof.
  unfold last_item, returns.
  destruct (last (split_dot s)) as [x|] eqn:E; [eauto|].
  apply last_None in E. destruct (split_dot_nonempty _ E).
Qed.

(** Outside the mode ["short"] the display name always resolves. *)
Lemma _get_name_returns (self : formatter) (record : LogRecord) :
  name_mode self <> "short" -> returns (_get_name self record).
Proof.
  intros Hm. unfold _get_name.
  destruct (String.eqb (name_mode self) "leaf"); [apply last_item_split|].
  destruct (String.eqb (name_mode self) "full"); [eexists; reflexivity|].
  destruct (String.eqb_spec (name_mode self) "short"); [contradiction|].
  eexists; reflexivity.
Qed.

End DisplayNames.

(** C6: the record name "alpha.beta.gamma" is displayed as "a.b.gamma"
    in mode "short", as "gamma" in mode "leaf" and unchanged in mode
    "full"; the same holds for every dotted name made of non-empty
    segments: "short" abbreviates every segment but the last to its
    first character, "leaf" keeps the last segment, "full" keeps the
    name. *)
Theorem display_name_modes :
  (forall cls lvl m,
     let record := record_named "alpha.beta.gamma" lvl m in
     _get_name (with_mode cls "short") record = Ok "a.b.gamma"
     /\ _get_name (with_mode cls "leaf") record = Ok "gamma"
     /\ _get_name (with_mode cls "full") record = Ok "alpha.beta.gamma")
  /\ (forall cls lvl m (init : list string) (leaf : string),
        Forall segment init -> segment leaf ->
        let record := record_named (join_dot (init ++ [leaf])) lvl m in
        _get_name (with_mode cls "short") record
          = Ok (join_dot (map abbreviated init ++ [leaf]))
        /\ _get_name (with_mode cls "leaf") record = Ok leaf
        /\ _get_name (with_mode cls "full") record
          = Ok (join_dot (init ++ [leaf]))).
Proof.
  split.
  - intros cls lvl m. repeat split; reflexivity.
  - intros cls lvl m init leaf Hinit Hleaf record.
    assert (Hsplit : split_dot (join_dot (init ++ [leaf]))
                     = (init ++ [leaf])%list).
    { apply split_join; [destruct init; discriminate|].
      apply Forall_app; split.
      - eapply Forall_impl; [exact Hinit|]. intros x Hx; apply Hx.
      - constructor; [apply Hleaf|constructor]. }
    repeat split.
    + unfold _get_name, record; simpl. rewrite Hsplit.
      rewrite but_last_snoc, last_item_snoc.
      rewrite comprehension_first_char; [reflexivity|].
      eapply Forall_impl; [exact Hinit|]. intros x Hx; apply Hx.
    + unfold _get_name, record; simpl. rewrite Hsplit.
      apply last_item_snoc.
Qed.

Lemma display_name_modes_witness :
  _get_name (with_mode ColorFormatter "short")
    (record_named (join_dot (["pkg"; "sub"] ++ ["mod"])) INFO "started")
  = Ok (join_dot (map abbreviated ["pkg"; "sub"] ++ ["mod"])).
Proof.
  refine (proj1 (proj2 display_name_modes ColorFormatter INFO "started"
                   ["pkg"; "sub"] "mod" _ _)).
  - repeat constructor; simpl; congruence.
  - split; simpl; congruence.
Defined.

(** C9: a formatter whose name mode is none of "leaf", "full" and
    "short" displays the record name unchanged; a formatter built
    without the [namemode] keyword has the mode "file", which is such a
    mode. *)
Theorem unknown_mode_full_name :
  (forall self record,
     name_mode self <> "leaf" -> name_mode self <> "full" ->
     name_mode self <> "short" ->
     _get_name self record = Ok (name record))
  /\ (forall cls record,
        name_mode (__init__ cls None) = "file"
        /\ _get_name (__init__ cls None) record = Ok (name record)).
Proof.
  split.
  - intros self record Hl Hf Hs. unfold _get_name.
    apply String.eqb_neq in Hl, Hf, Hs. rewrite Hl, Hf, Hs. reflexivity.
  - intros cls record. split; reflexivity.
Qed.

Lemma unknown_mode_full_name_witness :
  _get_name (with_mode CustomFormatter "path")
    (record_named "alpha.beta.gamma" WARNING "m")
  = Ok "alpha.beta.gamma".
Proof.
  refine (proj1 unknown_mode_full_name (with_mode CustomFormatter "path")
            (record_named "alpha.beta.gamma" WARNING "m") _ _ _);
    simpl; congruence.
Defined.

(** * Line templates *)

Section Templates.

Lemma FORMATS_standard (self : formatter) (k : Z) :
  In k standard_levels -> is_Some (FORMATS self !! k).
Proof.
  unfold standard_levels. simpl.
  intros [<-|[<-|[<-|[<-|[<-|[]]]]]]; destruct self as [[] mode];
    vm_compute; eauto.
Qed.

Lemma FORMATS_other (self : formatter) (k : Z) :
  ~ In k standard_levels -> FORMATS self !! k = None.
Proof.
  intros Hk. unfold FORMATS.
  destruct (fmt_class self); apply not_elem_of_list_to_map_1;
    rewrite list_elem_of_In; exact Hk.
Qed.

End Templates.

(** C10, as the code has it: at one of the five standard levels a
    template is found; the method then raises what the display name
    raises when that does not resolve, and otherwise ends as the
    package's formatter does on the template with the name filled in,
    returning or raising with it.  At any other level no template is
    found and the method raises, with an [AttributeError] when the
    display name resolves. *)
Theorem format_partial (Formatter_format : string -> LogRecord -> result string)
    (self : formatter) (record : LogRecord) :
  (In (levelno record) standard_levels ->
     is_Some (FORMATS self !! levelno record)
     /\ (forall n, _get_name self record = Ok n ->
           exists t, FORMATS self !! levelno record = Some t
             /\ format Formatter_format self record
                = Formatter_format (format_name 0 n t) record)
     /\ (forall e, _get_name self record = Raise e ->
           format Formatter_format self record = Raise e))
  /\ (~ In (levelno record) standard_levels ->
        FORMATS self !! levelno record = None
        /\ raises (format Formatter_format self record)
        /\ (forall n, _get_name self record = Ok n ->
              format Formatter_format self record = Raise AttributeError)).
Proof.
  split.
  - intros Hk. destruct (FORMATS_standard self _ Hk) as [t Ht].
    split; [eauto|]. split.
    + intros n Hn. exists t. split; [exact Ht|].
      unfold format. rewrite Hn, Ht. reflexivity.
    + intros e He. unfold format. rewrite He. reflexivity.
  - intros Hk. pose proof (FORMATS_other self _ Hk) as Hnone.
    split; [exact Hnone|]. split.
    + unfold format, raises. rewrite Hnone.
      destruct (_get_name self record); simpl; eauto.
    + intros n Hn. unfold format. rewrite Hn, Hnone. reflexivity.
Qed.

Lemma format_partial_witness :
  format echo_line (with_mode ColorFormatter "leaf")
    (record_named "alpha.beta.gamma" 25 "m")
  = Raise AttributeError.
Proof.
  refine (proj2 (proj2 (proj2 (format_partial echo_line
            (with_mode ColorFormatter "leaf")
            (record_named "alpha.beta.gamma" 25 "m")) _)) "gamma" _).
  - unfold standard_levels; simpl. intros H.
    repeat (destruct H as [H|H]; [discriminate H|]). exact H.
  - reflexivity.
Defined.

(** A record at the standard level [INFO] whose name has an empty
    segment, under the mode "short": a template is found, yet the
    method raises, in the display name, before the package's formatter
    is reached. *)
Lemma format_short_empty_segment :
  In (levelno (record_named "a..b" INFO "m")) standard_levels
  /\ format echo_line (with_mode ColorFormatter "short")
       (record_named "a..b" INFO "m")
     = Raise IndexError.
Proof. split; [right; left; reflexivity|reflexivity]. Qed.

(** * Module names *)

(** C8: when the calling frame has no module, [get_module_name] returns
    the prefix unchanged, for every prefix, and does not raise. *)
Theorem get_module_name_no_module (prefix : string) :
  get_module_name None prefix = Ok prefix.
Proof. reflexivity. Qed.

Section Paths.

Lemma append_nil (b : string) : EmptyString ++ b = b.
Proof. reflexivity. Qed.

Lemma append_cons (x : ascii) (a b : string) :
  String x a ++ b = String x (a ++ b).
Proof. reflexivity. Qed.

Lemma append_assoc (a b c : string) : (a ++ b) ++ c = a ++ (b ++ c).
Proof.
  induction a as [|x a IH]; [reflexivity|].
  rewrite !append_cons. now f_equal.
Qed.

Lemma append_length (a b : string) :
  String.length (a ++ b) = (String.length a + String.length b)%nat.
Proof.
  induction a as [|x a IH]; [reflexivity|].
  rewrite append_cons. simpl. now rewrite IH.
Qed.

Lemma replace_slash_app (a b : string) :
  replace_slash (a ++ b) = replace_slash a ++ replace_slash b.
Proof.
  induction a as [|x a IH]; [reflexivity|].
  rewrite append_cons. simpl. rewrite append_cons. now f_equal.
Qed.

Lemma replace_slash_length (a : string) :
  String.length (replace_slash a) = String.length a.
Proof. induction a as [|x a IH]; simpl; [reflexivity|]. now rewrite IH. Qed.

Lemma strip_set_not_slash (c : ascii) :
  strip_set c = false -> Ascii.eqb c slash = false.
Proof. unfold strip_set. intros H. now apply orb_false_elim in H. Qed.

(** [lstrip] stops at the first character that is kept. *)
Lemma lstrip_app (a b : string) (c : ascii) :
  strip_set c = false ->
  lstrip (a ++ String c b) = lstrip a ++ String c b.
Proof.
  intros Hc. induction a as [|x a IH].
  - rewrite append_nil. simpl. now rewrite Hc.
  - rewrite append_cons. simpl.
    destruct (strip_set x); [exact IH|reflexivity].
Qed.

Lemma lstrip_head (s : string) :
  lstrip s = EmptyString
  \/ exists c r, lstrip s = String c r /\ strip_set c = false.
Proof.
  induction s as [|x s IH]; simpl; [now left|].
  destruct (strip_set x) eqn:E; [exact IH|]. right. eauto.
Qed.

(** [rstrip] leaves a string alone when its end is kept. *)
Lemma rstrip_app (a s : string) :
  s <> EmptyString -> rstrip s = s -> rstrip (a ++ s) = a ++ s.
Proof.
  intros Hne Hs. induction a as [|x a IH]; [exact Hs|].
  rewrite append_cons. simpl. rewrite IH.
  destruct (a ++ s) eqn:E; [|reflexivity].
  destruct a; [rewrite append_nil in E|rewrite append_cons in E];
    congruence.
Qed.

(** A relative component is appended, after at most one separator. *)
Lemma join2_relative (path b : string) :
  startswith b "/" = false ->
  exists e, (e = EmptyString \/ e = "/")
            /\ PosixPath.join2 path b = path ++ e ++ b.
Proof.
  intros Hb. unfold PosixPath.join2. rewrite Hb. simpl.
  destruct (String.eqb_spec path EmptyString) as [->|_].
  - exists EmptyString. split; [now left|reflexivity].
  - destruct (endswith path "/").
    + exists EmptyString. split; [now left|reflexivity].
    + exists "/". split; [now right|reflexivity].
Qed.

Lemma startswith_kept (c : ascii) (r : string) :
  strip_set c = false -> startswith (String c r) "/" = false.
Proof.
  intros Hc.
  change (startswith (String c r) "/") with (Ascii.eqb slash c && true).
  now rewrite Ascii.eqb_sym, (strip_set_not_slash c Hc).
Qed.

(** The dotted name built on a kept stem ends with the stem: only what
    precedes it is normalised. *)
Lemma dotted_stem (prefix pkg stem : string) :
  kept_stem stem ->
  exists e, (e = EmptyString \/ e = "/")
    /\ dotted prefix [pkg; stem]
       = lstrip (replace_slash (PosixPath.join2 prefix pkg ++ e)) ++ stem.
Proof.
  intros [(c & r & -> & Hc) [Hr Hrep]].
  destruct (join2_relative (PosixPath.join2 prefix pkg) (String c r)
              (startswith_kept c r Hc)) as (e & He & HJ).
  exists e. split; [exact He|].
  unfold dotted, PosixPath.join. simpl fold_left. rewrite HJ.
  rewrite <- append_assoc, replace_slash_app, Hrep.
  unfold strip. rewrite lstrip_app by exact Hc.
  apply rstrip_app; [discriminate|exact Hr].
Qed.

(** Such a name is never the package alone. *)
Lemma dotted_stem_not_package (prefix pkg stem : string) :
  kept_stem stem -> dotted prefix [pkg; stem] <> pkg.
Proof.
  intros Hstem Heq.
  destruct (dotted_stem prefix pkg stem Hstem) as (e & He & Hd).
  destruct Hstem as [(c & r & -> & Hc) _].
  assert (Hpkg : exists d p, pkg = String d p /\ strip_set d = false).
  { rewrite Heq in Hd.
    destruct (lstrip_head
                (replace_slash (PosixPath.join2 prefix pkg ++ e)))
      as [E|(d & p & E & Hd')]; rewrite E in Hd.
    - rewrite append_nil in Hd. eauto.
    - rewrite append_cons in Hd. eauto. }
  destruct Hpkg as (d & p & -> & Hd').
  destruct (join2_relative prefix (String d p) (startswith_kept d p Hd'))
    as (e1 & _ & HP).
  rewrite HP in Hd.
  assert (Hshape : replace_slash ((prefix ++ e1 ++ String d p) ++ e)
                   = replace_slash (prefix ++ e1)
                     ++ String d (replace_slash (p ++ e))).
  { rewrite <- (append_assoc prefix e1), (append_assoc (prefix ++ e1)).
    rewrite replace_slash_app, append_cons. simpl.
    now rewrite (strip_set_not_slash d Hd'). }
  rewrite Hshape, lstrip_app in Hd by exact Hd'.
  rewrite Heq in Hd. apply (f_equal String.length) in Hd.
  rewrite !append_length in Hd. simpl in Hd.
  rewrite replace_slash_length, append_length in Hd. lia.
Qed.

Lemma sentinel_stems_kept (stem : string) :
  stem = "__init__" \/ stem = "__main__" -> kept_stem stem.
Proof.
  intros [->| ->]; (split; [do 2 eexists; split; reflexivity|]);
    split; reflexivity.
Qed.

End Paths.

(** C1, as the code has it: the stem is compared with the pair of
    sentinel names by [==], and a string is never equal to a tuple, so
    the comparison is false for every stem and the package-only return
    behind it is dead for both sentinels.  With a file path the function
    returns the dotted join of prefix, package and stem, which for the
    stem "__init__" or "__main__" is never the package alone; when the
    file path is [None] the package is returned. *)
Theorem package_branch_dead (m : module) (prefix : string)
    (package : option string) :
  __package__ m = Present package ->
  let pkg := default EmptyString package in
  (__file__ m = Present None -> _get_main_module_name m prefix = Ok pkg)
  /\ (forall mfname, __file__ m = Present (Some mfname) ->
        py_eq (PStr (file_stem mfname)) (PTuple ["__init__"; "__main__"])
        = false
        /\ _get_main_module_name m prefix
           = Ok (dotted prefix [pkg; file_stem mfname])
        /\ (file_stem mfname = "__init__" \/ file_stem mfname = "__main__"
            -> _get_main_module_name m prefix <> Ok pkg)).
Proof.
  intros Hpkg pkg. unfold _get_main_module_name. rewrite Hpkg. split.
  - intros ->. reflexivity.
  - intros mfname ->. split; [reflexivity|]. split; [reflexivity|].
    intros Hstem Heq. simpl in Heq. injection Heq as Heq.
    exact (dotted_stem_not_package prefix pkg (file_stem mfname)
             (sentinel_stems_kept _ Hstem) Heq).
Qed.

Lemma package_branch_dead_witness :
  _get_main_module_name
    (main_module (Some "pkg") (Some "/srv/app/pkg/__main__.py")) "app"
  <> Ok "pkg".
Proof.
  refine (proj2 (proj2 (proj2 (package_branch_dead
            (main_module (Some "pkg") (Some "/srv/app/pkg/__main__.py"))
            "app" (Some "pkg") eq_refl)
            "/srv/app/pkg/__main__.py" eq_refl)) _).
  right. reflexivity.
Defined.

(** Both sentinel stems, in the package "pkg": neither call returns the
    package alone. *)
Lemma sentinel_stems_both_joined :
  _get_main_module_name
    (main_module (Some "pkg") (Some "/srv/app/pkg/__init__.py")) EmptyString
  = Ok "pkg.__init__"
  /\ _get_main_module_name
       (main_module (Some "pkg") (Some "/srv/app/pkg/__main__.py")) EmptyString
     = Ok "pkg.__main__".
Proof. split; reflexivity. Qed.

(** * Levels *)

Section LevelPolicy.

Variable import_environ : gmap string string.

Lemma level_of_update (st : State) (l : logger_ref) (n : Z) :
  is_Some (lookup_logger st l) ->
  level_of (update_logger (with_level n) l st) l = Some n.
Proof.
  unfold level_of. destruct l as [|k]; simpl; [reflexivity|].
  intros [x Hx]. rewrite lookup_alter_eq, Hx. reflexivity.
Qed.


Lemma emitted_update (f : Logger -> Logger) (st : State)
    (l : logger_ref) :
  emitted (update_logger f l st) = emitted st.
Proof. destruct l; reflexivity. Qed.

Lemma lookup_warning (st : State) (l l' : logger_ref) (m : string) :
  lookup_logger (warning st l m) l' = lookup_logger st l'.
Proof. unfold warning. destruct (isEnabledFor st l WARNING), l'; reflexivity. Qed.

(** A logger with a level of its own is its own effective level. *)
Lemma effective_own_level (st : State) (l : logger_ref) (n : Z) :
  level_of st l = Some n -> n <> 0 -> getEffectiveLevel st l = n.
Proof.
  unfold level_of, getEffectiveLevel, chain.
  destruct l as [|k]; simpl.
  - intros [= <-] Hn. apply Z.eqb_neq in Hn. now rewrite Hn.
  - destruct (loggerDict st !! k) as [x|]; simpl; [|discriminate].
    intros [= <-] Hn. apply Z.eqb_neq in Hn. now rewrite Hn.
Qed.

(** A handle at [WARNING] emits its warnings. *)
Lemma warning_emitted (st : State) (l : logger_ref) (m : string) :
  level_of st l = Some WARNING ->
  emitted (warning st l m)
  = (emitted st ++ [{| name := logger_name l; levelno := WARNING;
                       msg := m |}])%list.
Proof.
  intros Hl. unfold warning, isEnabledFor.
  rewrite (effective_own_level st l WARNING Hl) by discriminate.
  unfold level_of in Hl. destruct (lookup_logger st l); [|discriminate].
  reflexivity.
Qed.

(** The string that [getLevelName] makes of an unknown name is not a
    level name either. *)
Lemma level_prefix_unknown (s : string) :
  _nameToLevel !! ("Level " ++ s) = None.
Proof.
  apply not_elem_of_list_to_map_1. rewrite list_elem_of_In. simpl.
  intros H. repeat (destruct H as [H|H]; [discriminate H|]). exact H.
Qed.

Lemma setLevel_known (st : State) (l : logger_ref) (s : string) (n : Z) :
  _nameToLevel !! s = Some n ->
  setLevel st l (getLevelName s) = Ok (update_logger (with_level n) l st).
Proof. intros H. unfold getLevelName. rewrite H. reflexivity. Qed.

Lemma setLevel_unknown (st : State) (l : logger_ref) (s : string) :
  _nameToLevel !! s = None ->
  setLevel st l (getLevelName s) = Raise ValueError.
Proof.
  intros H. unfold getLevelName, setLevel. rewrite H. simpl.
  rewrite level_prefix_unknown. reflexivity.
Qed.

Lemma default_known (st : State) (l : logger_ref) (n : Z) :
  _nameToLevel !! DEFAULT_LOG_LEVEL import_environ = Some n ->
  set_default_log_level import_environ st l
  = Ok (update_logger (with_level n) l st).
Proof.
  intros H. unfold set_default_log_level.
  destruct (decide _) as [_|Hno]; [now apply setLevel_known|].
  apply not_elem_of_dom in Hno. congruence.
Qed.

Lemma default_unknown (st : State) (l : logger_ref) :
  _nameToLevel !! DEFAULT_LOG_LEVEL import_environ = None ->
  set_default_log_level import_environ st l
  = Ok (warning (update_logger (with_level WARNING) l st) l
          (unknown_level_msg (DEFAULT_LOG_LEVEL import_environ))).
Proof.
  intros H. unfold set_default_log_level.
  destruct (decide _) as [Hin|_]; [|reflexivity].
  apply elem_of_dom in Hin as [n Hn]. congruence.
Qed.

Lemma requested_known (st : State) (l : logger_ref) (s : string) (n : Z) :
  _nameToLevel !! upper s = Some n ->
  set_log_level import_environ st l s
  = Ok (update_logger (with_level n) l st).
Proof.
  intros H. unfold set_log_level. now rewrite (setLevel_known _ _ _ n H).
Qed.

Lemma requested_unknown (st : State) (l : logger_ref) (s : string) :
  _nameToLevel !! upper s = None ->
  set_log_level import_environ st l s
  = (st1 ← set_default_log_level import_environ st l;
     Ok (warning st1 l (unknown_level_msg (upper s)))).
Proof.
  intros H. unfold set_log_level. now rewrite (setLevel_unknown _ _ _ H).
Qed.

(** [set_log_level] always returns. *)
Lemma set_log_level_returns (st : State) (l : logger_ref) (s : string) :
  returns (set_log_level import_environ st l s).
Proof.
  unfold returns.
  destruct (_nameToLevel !! upper s) as [n|] eqn:Hreq.
  - rewrite (requested_known _ _ _ n Hreq). eauto.
  - rewrite (requested_unknown _ _ _ Hreq).
    destruct (_nameToLevel !! DEFAULT_LOG_LEVEL import_environ)
      as [n|] eqn:Hdef.
    + rewrite (default_known _ _ n Hdef). simpl. eauto.
    + rewrite (default_unknown _ _ Hdef). simpl. eauto.
Qed.

(** The spellings of the level names are those of the package's
    table. *)
Lemma named_level_table (s : string) : named_level s = _nameToLevel !! s.
Proof.
  unfold named_level.
  destruct (String.eqb_spec s "CRITICAL") as [->|H1]; [reflexivity|].
  destruct (String.eqb_spec s "FATAL") as [->|H2]; [reflexivity|].
  destruct (String.eqb_spec s "ERROR") as [->|H3]; [reflexivity|].
  destruct (String.eqb_spec s "WARNING") as [->|H4]; [reflexivity|].
  destruct (String.eqb_spec s "WARN") as [->|H5]; [reflexivity|].
  destruct (String.eqb_spec s "INFO") as [->|H6]; [reflexivity|].
  destruct (String.eqb_spec s "DEBUG") as [->|H7]; [reflexivity|].
  destruct (String.eqb_spec s "NOTSET") as [->|H8]; [reflexivity|].
  simpl. symmetry.
  apply not_elem_of_list_to_map_1. rewrite list_elem_of_In. simpl.
  intuition congruence.
Qed.

Lemma environment_default_eq :
  environment_default import_environ = DEFAULT_LOG_LEVEL import_environ.
Proof.
  unfold environment_default, DEFAULT_LOG_LEVEL, getenv.
  destruct (import_environ !! "DEFAULT_LOG_LEVEL"); reflexivity.
Qed.

(** The level that [set_log_level] leaves on a handle. *)
Lemma set_log_level_level (st : State) (l : logger_ref) (s : string) :
  exists st',
    set_log_level import_environ st l s = Ok st'
    /\ (is_Some (lookup_logger st l) ->
        level_of st' l = Some (resolved_level import_environ s)).
Proof.
  unfold resolved_level. rewrite !named_level_table, environment_default_eq.
  destruct (_nameToLevel !! upper s) as [n|] eqn:Hreq.
  - eexists. split; [apply requested_known, Hreq|].
    apply level_of_update.
  - rewrite (requested_unknown _ _ _ Hreq).
    destruct (_nameToLevel !! DEFAULT_LOG_LEVEL import_environ)
      as [n|] eqn:Hdef.
    + rewrite (default_known _ _ n Hdef). eexists. split; [reflexivity|].
      intros Hlog. unfold level_of. rewrite lookup_warning.
      now apply level_of_update.
    + rewrite (default_unknown _ _ Hdef). eexists. split; [reflexivity|].
      intros Hlog. unfold level_of. rewrite !lookup_warning.
      now apply level_of_update.
Qed.

(** A name stands for one of the five severities, unless it is the
    name [NOTSET] of the level 0. *)
Lemma named_level_cases (s : string) (n : Z) :
  named_level s = Some n ->
  In n standard_levels \/ (n = NOTSET /\ s = "NOTSET").
Proof.
  unfold named_level, standard_levels.
  destruct (String.eqb s "CRITICAL" || String.eqb s "FATAL");
    [intros [= <-]; left; simpl; tauto|].
  destruct (String.eqb s "ERROR"); [intros [= <-]; left; simpl; tauto|].
  destruct (String.eqb s "WARNING" || String.eqb s "WARN");
    [intros [= <-]; left; simpl; tauto|].
  destruct (String.eqb s "INFO"); [intros [= <-]; left; simpl; tauto|].
  destruct (String.eqb s "DEBUG"); [intros [= <-]; left; simpl; tauto|].
  destruct (String.eqb_spec s "NOTSET") as [->|_]; [|discriminate].
  intros [= <-]. right. split; reflexivity.
Qed.

End LevelPolicy.

(** C4: for each of the five severity names, written in any letter
    case, [set_log_level] returns with the handle at that severity: its
    own level and its effective level are the named one, and nothing is
    logged. *)
Theorem set_log_level_named (import_environ : gmap string string)
    (st : State) (log : logger_ref) (lvl_str nm : string) (v : Z) :
  In (nm, v) severities ->
  upper lvl_str = nm ->
  is_Some (lookup_logger st log) ->
  exists st',
    set_log_level import_environ st log lvl_str = Ok st'
    /\ level_of st' log = Some v
    /\ getEffectiveLevel st' log = v
    /\ new_records st st' = [].
Proof.
  intros Hin Hup Hlog.
  assert (Hv : _nameToLevel !! upper lvl_str = Some v /\ v <> 0).
  { rewrite Hup. unfold severities in Hin. simpl in Hin.
    repeat (destruct Hin as [[= <- <-]|Hin]; [split; [reflexivity|discriminate]|]).
    destruct Hin. }
  destruct Hv as [Hv Hnz].
  eexists. split; [apply requested_known, Hv|].
  pose proof (level_of_update st log v Hlog) as Hl.
  split; [exact Hl|]. split; [now apply effective_own_level|].
  unfold new_records. rewrite emitted_update. apply drop_all.
Qed.

Lemma set_log_level_named_witness :
  exists st',
    set_log_level ∅ (snd (getLogger initial "app")) (Registered "app") "Info"
    = Ok st'
    /\ level_of st' (Registered "app") = Some INFO
    /\ getEffectiveLevel st' (Registered "app") = INFO
    /\ new_records (snd (getLogger initial "app")) st' = [].
Proof.
  refine (set_log_level_named ∅ (snd (getLogger initial "app"))
            (Registered "app") "Info" "INFO" INFO _ _ _).
  - right; left; reflexivity.
  - reflexivity.
  - vm_compute. eauto.
Defined.

(** C5, as the code has it: for every input string [set_log_level]
    returns, it never raises; the handle ends at the first level that
    the fallback chain names: the requested one, else the default of the
    environment, else the system level [WARNING].  That level is one of
    the five severities unless the name that resolves is [NOTSET], in
    the request or in the default of the environment: the handle is then
    left at the level 0. *)
Theorem set_log_level_total (import_environ : gmap string string)
    (st : State) (log : logger_ref) (lvl_str : string) :
  exists st',
    set_log_level import_environ st log lvl_str = Ok st'
    /\ (is_Some (lookup_logger st log) ->
        level_of st' log = Some (resolved_level import_environ lvl_str))
    /\ (In (resolved_level import_environ lvl_str) standard_levels
        \/ (resolved_level import_environ lvl_str = NOTSET
            /\ (upper lvl_str = "NOTSET"
                \/ (named_level (upper lvl_str) = None
                    /\ environment_default import_environ = "NOTSET")))).
Proof.
  destruct (set_log_level_level import_environ st log lvl_str)
    as (st' & Hrun & Hlevel).
  exists st'. split; [exact Hrun|]. split; [exact Hlevel|].
  unfold resolved_level.
  destruct (named_level (upper lvl_str)) as [n|] eqn:Hreq.
  - destruct (named_level_cases _ _ Hreq) as [H|[-> H]]; [now left|].
    right. split; [reflexivity|now left].
  - destruct (named_level (environment_default import_environ))
      as [n|] eqn:Hdef.
    + destruct (named_level_cases _ _ Hdef) as [H|[-> H]]; [now left|].
      right. split; [reflexivity|]. right. split; [reflexivity|exact H].
    + left. unfold standard_levels. simpl. tauto.
Qed.

Lemma set_log_level_total_witness :
  exists st',
    set_log_level (<["DEFAULT_LOG_LEVEL" := "error"]> ∅) initial
      RootLogger "loud" = Ok st'
    /\ level_of initial RootLogger = Some WARNING
    /\ level_of st' RootLogger = Some ERROR.
Proof.
  destruct (set_log_level_total (<["DEFAULT_LOG_LEVEL" := "error"]> ∅)
              initial RootLogger "loud") as (st' & Hrun & Hlevel & _).
  exists st'. split; [exact Hrun|]. split; [reflexivity|].
  apply Hlevel. vm_compute. eauto.
Defined.

(** The request "notset" names a level: the root logger ends at the
    level 0, which is its effective level too and none of the five
    severities. *)
Lemma notset_is_no_severity :
  (st' ← set_log_level ∅ initial RootLogger "notset";
   Ok (level_of st' RootLogger, getEffectiveLevel st' RootLogger))
  = Ok (Some NOTSET, NOTSET)
  /\ existsb (Z.eqb NOTSET) standard_levels = false.
Proof. split; reflexivity. Qed.

(** C2, as the code has it: when neither the requested string nor the
    default of the environment names a level, [set_log_level] leaves the
    handle at the system level [WARNING] and two warnings are emitted
    during the call, one for each step of the fallback: first the
    unknown default, reported by [set_default_log_level], then the
    unknown request, reported by [set_log_level]. *)
Theorem set_log_level_double_fallback (import_environ : gmap string string)
    (st : State) (log : logger_ref) (lvl_str : string) :
  _nameToLevel !! upper lvl_str = None ->
  _nameToLevel !! DEFAULT_LOG_LEVEL import_environ = None ->
  is_Some (lookup_logger st log) ->
  exists st',
    set_log_level import_environ st log lvl_str = Ok st'
    /\ level_of st' log = Some WARNING
    /\ new_records st st'
       = [ unknown_level_record log (DEFAULT_LOG_LEVEL import_environ);
           unknown_level_record log (upper lvl_str) ].
Proof.
  intros Hreq Hdef Hlog.
  rewrite (requested_unknown _ _ _ _ Hreq), (default_unknown _ _ _ Hdef).
  eexists. split; [reflexivity|].
  pose proof (level_of_update st log WARNING Hlog) as H0.
  set (st0 := update_logger (with_level WARNING) log st) in *.
  set (st1 := warning st0 log _).
  assert (H1 : level_of st1 log = Some WARNING).
  { unfold level_of, st1. now rewrite lookup_warning. }
  split.
  - unfold level_of. now rewrite lookup_warning.
  - unfold new_records.
    rewrite (warning_emitted st1 _ _ H1). unfold st1.
    rewrite (warning_emitted st0 _ _ H0). unfold st0.
    rewrite emitted_update, <- app_assoc. simpl.
    now rewrite drop_app_length.
Qed.

Lemma set_log_level_double_fallback_witness :
  exists st',
    set_log_level (<["DEFAULT_LOG_LEVEL" := "chatty"]> ∅)
      (snd (getLogger initial "app")) (Registered "app") "loud" = Ok st'
    /\ level_of st' (Registered "app") = Some WARNING
    /\ new_records (snd (getLogger initial "app")) st'
       = [ unknown_level_record (Registered "app") "CHATTY";
           unknown_level_record (Registered "app") "LOUD" ].
Proof.
  refine (set_log_level_double_fallback
            (<["DEFAULT_LOG_LEVEL" := "chatty"]> ∅)
            (snd (getLogger initial "app")) (Registered "app") "loud"
            _ _ _).
  - reflexivity.
  - reflexivity.
  - vm_compute. eauto.
Defined.

(** Neither "loud" nor the default "chatty" names a level: the handle
    ends at [WARNING] and the call emits two records. *)
Lemma two_warnings_when_both_unknown :
  _nameToLevel !! upper "loud" = None
  /\ _nameToLevel
       !! DEFAULT_LOG_LEVEL (<["DEFAULT_LOG_LEVEL" := "chatty"]> ∅) = None
  /\ (st' ← set_log_level (<["DEFAULT_LOG_LEVEL" := "chatty"]> ∅)
              (snd (getLogger initial "app")) (Registered "app") "loud";
      Ok (level_of st' (Registered "app"),
          length (new_records (snd (getLogger initial "app")) st')))
     = Ok (Some WARNING, 2%nat).
Proof. repeat split; reflexivity. Qed.

(** * The registry *)

Section Links.

Lemma same_loggers_refl (st : State) : same_loggers st st.
Proof. repeat split. Qed.

Lemma same_loggers_trans (st1 st2 st3 : State) :
  same_loggers st1 st2 -> same_loggers st2 st3 -> same_loggers st1 st3.
Proof.
  intros (H1 & H2 & H3 & H4) (K1 & K2 & K3 & K4).
  repeat split; congruence.
Qed.

Lemma take_str_length (j : nat) (s : string) :
  (String.length (take_str j s) <= j)%nat.
Proof.
  revert s. induction j as [|j IH]; intros [|c r]; simpl; try lia.
  specialize (IH r). lia.
Qed.

(** A logger noted under a proper prefix of its name keeps the place
    holders in order. *)
Lemma note_child_ok (substr name : string) (st : State) :
  (String.length substr < String.length name)%nat ->
  placeholders_ok st -> placeholders_ok (note_child substr name st).
Proof.
  intros Hlen Hst k cs c. unfold note_child. simpl.
  destruct (decide (substr = k)) as [<-|Hne].
  - rewrite lookup_insert_eq. intros [= <-] Hc.
    destruct (placeholders st !! substr) as [cs0|] eqn:E; simpl in Hc.
    + destruct (bool_decide (name ∈ cs0)).
      * exact (Hst substr cs0 c E Hc).
      * apply in_app_or in Hc as [Hc|[<-|[]]];
          [exact (Hst substr cs0 c E Hc)|exact Hlen].
    + destruct Hc as [<-|[]]. exact Hlen.
  - rewrite lookup_insert_ne by exact Hne. apply Hst.
Qed.

(** The search for a parent touches the place holders only, and ends on
    the root or on a logger whose name is shorter. *)
Lemma _fixupParents_from_spec (name : string) (hi : nat) (st : State) :
  (hi <= String.length name)%nat ->
  same_loggers st (snd (_fixupParents_from name hi st))
  /\ parents (snd (_fixupParents_from name hi st)) = parents st
  /\ (fst (_fixupParents_from name hi st) = RootLogger
      \/ exists m, fst (_fixupParents_from name hi st) = Registered m
           /\ is_Some (loggerDict st !! m)
           /\ (String.length m < String.length name)%nat)
  /\ (placeholders_ok st ->
      placeholders_ok (snd (_fixupParents_from name hi st))).
Proof.
  revert st. induction hi as [hi IH] using lt_wf_ind. intros st Hhi.
  destruct hi as [|j]; [simpl; repeat split; auto|].
  cbn [_fixupParents_from].
  destruct (is_dot_at name j).
  - destruct j as [|j']; [simpl; repeat split; auto|].
    pose proof (take_str_length (S j') name) as Hl.
    destruct (loggerDict st !! take_str (S j') name) as [x|] eqn:E.
    + simpl. repeat split; auto. right.
      exists (take_str (S j') name). split; [reflexivity|].
      split; [rewrite E; eauto|lia].
    + destruct (IH j' ltac:(lia)
                  (note_child (take_str (S j') name) name st) ltac:(lia))
        as (H1 & H2 & H3 & H4).
      split; [exact H1|]. split; [exact H2|]. split; [exact H3|].
      intros Hok. apply H4, note_child_ok; [lia|exact Hok].
  - apply (IH j); lia.
Qed.

Lemma _fixupParents_spec (name : string) (st : State) :
  exists rv st1,
    _fixupParents name st = set_parent name rv st1
    /\ same_loggers st st1 /\ parents st1 = parents st
    /\ (rv = RootLogger
        \/ exists m, rv = Registered m /\ is_Some (loggerDict st !! m)
             /\ (String.length m < String.length name)%nat)
    /\ (placeholders_ok st -> placeholders_ok st1).
Proof.
  unfold _fixupParents.
  pose proof (_fixupParents_from_spec name (String.length name) st
                (le_n _)) as H.
  destruct (_fixupParents_from name (String.length name) st) as [rv st1].
  exists rv, st1. split; [reflexivity|exact H].
Qed.

Lemma _fixupChild_spec (name : string) (st : State) (c : string) :
  same_loggers st (_fixupChild name st c)
  /\ placeholders (_fixupChild name st c) = placeholders st
  /\ (forall n, n <> name ->
        parents (_fixupChild name st c) !! n = parents st !! n
        \/ (n = c
            /\ parents (_fixupChild name st c) !! n
               = Some (Registered name))).
Proof.
  unfold _fixupChild.
  destruct (parents st !! c) as [p|]; [|repeat split; intros; now left].
  destruct (String.eqb _ name); [repeat split; intros; now left|].
  repeat split. intros n Hn. simpl.
  destruct (decide (c = n)) as [->|Hne].
  - right. split; [reflexivity|apply lookup_insert_eq].
  - left. rewrite lookup_insert_ne by exact Hne.
    apply lookup_insert_ne. congruence.
Qed.

(** The loop over the children of a place holder moves children under
    the new logger, and touches nothing else but the link of the new
    logger. *)
Lemma _fixupChildren_spec (children : list string) (name : string)
    (st : State) :
  same_loggers st (_fixupChildren children name st)
  /\ placeholders (_fixupChildren children name st) = placeholders st
  /\ (forall n, n <> name ->
        parents (_fixupChildren children name st) !! n = parents st !! n
        \/ (In n children
            /\ parents (_fixupChildren children name st) !! n
               = Some (Registered name))).
Proof.
  unfold _fixupChildren. revert st.
  induction children as [|c cs IH]; intros st; simpl.
  - repeat split. intros; now left.
  - destruct (IH (_fixupChild name st c)) as (H1 & H2 & H3).
    destruct (_fixupChild_spec name st c) as (K1 & K2 & K3).
    split; [exact (same_loggers_trans _ _ _ K1 H1)|].
    split; [congruence|].
    intros n Hn. destruct (H3 n Hn) as [E|[Hin E]].
    + destruct (K3 n Hn) as [E'|[-> E']].
      * left. congruence.
      * right. split; [now left|congruence].
    + right. split; [now right|exact E].
Qed.

Lemma ref_of_cases (name : string) :
  ref_of name = RootLogger \/ ref_of name = Registered name.
Proof. unfold ref_of. destruct (_ || _); auto. Qed.

Lemma getLogger_fst (st : State) (name : string) :
  fst (getLogger st name) = ref_of name.
Proof.
  unfold getLogger, ref_of.
  destruct (String.eqb name EmptyString || String.eqb name "root");
    [reflexivity|].
  unfold Manager_getLogger.
  destruct (loggerDict st !! name); [reflexivity|].
  now destruct (placeholders st !! name).
Qed.

Lemma getLogger_pair (st : State) (name : string) :
  getLogger st name = (ref_of name, snd (getLogger st name)).
Proof. rewrite <- (getLogger_fst st name). now destruct (getLogger st name). Qed.

(** The three ways of [getLogger]: the root, a logger that is there, a
    logger that is made. *)
Lemma getLogger_root (st : State) (name : string) :
  ref_of name = RootLogger -> snd (getLogger st name) = st.
Proof.
  unfold ref_of, getLogger.
  destruct (String.eqb name EmptyString || String.eqb name "root");
    [reflexivity|discriminate].
Qed.

Lemma getLogger_old (st : State) (name : string) (x : Logger) :
  loggerDict st !! name = Some x -> snd (getLogger st name) = st.
Proof.
  intros E. unfold getLogger.
  destruct (String.eqb name EmptyString || String.eqb name "root");
    [reflexivity|].
  unfold Manager_getLogger. now rewrite E.
Qed.

Lemma getLogger_new (st : State) (name : string) :
  ref_of name = Registered name -> loggerDict st !! name = None ->
  snd (getLogger st name)
  = _fixupParents name
      (_fixupChildren (default [] (placeholders st !! name)) name
         (register name st)).
Proof.
  unfold ref_of, getLogger.
  destruct (String.eqb name EmptyString || String.eqb name "root");
    [discriminate|].
  intros _ E. unfold Manager_getLogger. rewrite E.
  now destruct (placeholders st !! name).
Qed.

(** [getLogger] makes the logger of the name when it is not there, and
    leaves the loggers, the identities and the records as they are. *)
Lemma getLogger_loggers (st : State) (name : string) :
  root (snd (getLogger st name)) = root st
  /\ loggerDict (snd (getLogger st name)) = known name (loggerDict st)
  /\ next_hid (snd (getLogger st name)) = next_hid st
  /\ emitted (snd (getLogger st name)) = emitted st.
Proof.
  unfold known. destruct (ref_of_cases name) as [Hr|Hr]; rewrite Hr.
  - rewrite (getLogger_root st name Hr). repeat split.
  - destruct (loggerDict st !! name) as [x|] eqn:E.
    + rewrite (getLogger_old st name x E). repeat split.
    + rewrite (getLogger_new st name Hr E).
      set (st0 := register name st).
      set (cs := default [] (placeholders st !! name)).
      destruct (_fixupChildren_spec cs name st0) as ((C1 & C2 & C3 & C4) & _).
      destruct (_fixupParents_spec name (_fixupChildren cs name st0))
        as (rv & st1 & -> & (P1 & P2 & P3 & P4) & _).
      unfold st0 in *. simpl in *. repeat split; congruence.
Qed.

Lemma getLogger_next_hid (st : State) (name : string) :
  next_hid (snd (getLogger st name)) = next_hid st.
Proof. apply (getLogger_loggers st name). Qed.

Lemma getLogger_emitted (st : State) (name : string) :
  emitted (snd (getLogger st name)) = emitted st.
Proof. apply (getLogger_loggers st name). Qed.

Lemma lookup_getLogger (st : State) (name : string) (l : logger_ref) :
  lookup_logger (snd (getLogger st name)) l
  = match l with
    | RootLogger => Some (root st)
    | Registered k => known name (loggerDict st) !! k
    end.
Proof.
  destruct (getLogger_loggers st name) as (H1 & H2 & _).
  destruct l; simpl; congruence.
Qed.



(** A logger that [getLogger] finds in place was there, or is new. *)
Lemma known_cases (name k : string) (d : gmap string Logger) (v : Logger) :
  known name d !! k = Some v -> d !! k = Some v \/ v = new_logger.
Proof.
  unfold known. destruct (ref_of name) as [|n]; [now left|].
  destruct (d !! n) eqn:E; [now left|].
  destruct (decide (n = k)) as [->|Hne].
  - rewrite lookup_insert_eq. intros [= <-]. now right.
  - rewrite lookup_insert_ne by exact Hne. now left.
Qed.






Lemma getLogger_fresh (st : State) (name : string) :
  fresh_ids st -> fresh_ids (snd (getLogger st name)).
Proof.
  intros Hf l y. rewrite lookup_getLogger, getLogger_next_hid.
  destruct l as [|k]; [apply (Hf RootLogger)|].
  intros Hy. destruct (known_cases _ _ _ _ Hy) as [H| ->].
  - exact (Hf (Registered k) y H).
  - constructor.
Qed.

End Links.

(** * Sinks *)

Section Sinks.

Lemma lookup_allocate (st : State) (l : logger_ref) :
  lookup_logger (allocate st) l = lookup_logger st l.
Proof. destruct l; reflexivity. Qed.



Lemma next_hid_update (f : Logger -> Logger) (l : logger_ref)
    (st : State) :
  next_hid (update_logger f l st) = next_hid st.
Proof. destruct l; reflexivity. Qed.

Lemma next_hid_addHandler (st : State) (l : logger_ref) (h : Handler) :
  next_hid (addHandler st l h) = next_hid st.
Proof. apply next_hid_update. Qed.

Lemma get_console_handler_eq (st : State) (namemode : string) :
  get_console_handler st namemode
  = (console_sink (next_hid st) namemode, allocate st).
Proof. reflexivity. Qed.

(** The file sink is made when the file at the absolute path opens. *)
Lemma get_file_handler_eq (fs : FileSystem) (st : State)
    (fname namemode : string) :
  get_file_handler fs st fname namemode
  = if file_opens fs fname
    then Ok (file_sink fs (next_hid st) fname namemode, allocate st)
    else Raise OSError.
Proof.
  unfold get_file_handler, TimedRotatingFileHandler_init, file_opens.
  destruct (opens fs (abspath fs fname)); reflexivity.
Qed.

(** [init_root_logger], step by step. *)
Lemma init_root_logger_eq (fs : FileSystem) (st : State)
    (root_name logpath namemode : string) :
  init_root_logger fs st root_name logpath namemode
  = let log := ref_of root_name in
    let st1 := snd (getLogger st root_name) in
    let st4 :=
      addHandler (allocate (update_logger (with_level DEBUG) log st1))
        log (console_sink (next_hid st) namemode) in
    if String.eqb logpath EmptyString then (Ok tt, st4)
    else if file_opens fs logpath
    then (Ok tt,
          addHandler (allocate st4) log
            (file_sink fs (S (next_hid st)) logpath namemode))
    else (Raise OSError, st4).
Proof.
  pose proof (getLogger_next_hid st root_name) as Hid.
  unfold init_root_logger. rewrite (getLogger_pair st root_name).
  cbn [setLevel _checkLevel mbind result_bind fst snd].
  rewrite get_console_handler_eq, next_hid_update, Hid.
  destruct (String.eqb logpath EmptyString); cbn [negb]; [reflexivity|].
  rewrite get_file_handler_eq.
  destruct (file_opens fs logpath); [|reflexivity].
  rewrite next_hid_addHandler. cbn [allocate next_hid].
  rewrite next_hid_update, Hid. reflexivity.
Qed.

(** The result of root initialisation. *)
Lemma init_root_logger_result (fs : FileSystem) (st : State)
    (root_name logpath namemode : string) :
  fst (init_root_logger fs st root_name logpath namemode)
  = init_result fs logpath.
Proof.
  rewrite init_root_logger_eq. cbn zeta. unfold init_result.
  destruct (String.eqb logpath EmptyString); [reflexivity|].
  now destruct (file_opens fs logpath).
Qed.

End Sinks.





(** * The sink guard *)

Section Guard.

Variable import_environ : gmap string string.


Lemma wiring_with_level (st : State) (l : logger_ref) (n : Z) :
  wiring (update_logger (with_level n) l st) = wiring st.
Proof.
  destruct l as [|k]; [reflexivity|]. unfold wiring. simpl. f_equal.
  apply map_eq. intros i. rewrite !lookup_fmap.
  destruct (decide (k = i)) as [->|Hne].
  - rewrite lookup_alter_eq. now destruct (loggerDict st !! i).
  - now rewrite lookup_alter_ne.
Qed.

Lemma wiring_warning (st : State) (l : logger_ref) (m : string) :
  wiring (warning st l m) = wiring st.
Proof. unfold warning. now destruct (isEnabledFor st l WARNING). Qed.

(** Setting a level touches no sink. *)
Lemma wiring_set_log_level (st st' : State) (l : logger_ref)
    (lvl_str : string) :
  set_log_level import_environ st l lvl_str = Ok st' ->
  wiring st' = wiring st.
Proof.
  destruct (_nameToLevel !! upper lvl_str) as [n|] eqn:Hreq.
  - rewrite (requested_known _ _ _ _ n Hreq). intros [= <-].
    apply wiring_with_level.
  - rewrite (requested_unknown _ _ _ _ Hreq).
    destruct (_nameToLevel !! DEFAULT_LOG_LEVEL import_environ)
      as [n|] eqn:Hdef.
    + rewrite (default_known _ _ _ n Hdef). intros [= <-].
      now rewrite wiring_warning, wiring_with_level.
    + rewrite (default_unknown _ _ _ Hdef). intros [= <-].
      now rewrite !wiring_warning, wiring_with_level.
Qed.














End Guard.

(** * Display names, continued *)

Section Segments.

Lemma split_dot_dotless (s : string) :
  Forall (fun x => has_dot x = false) (split_dot s).
Proof.
  induction s as [|c r IH]; simpl; [repeat constructor|].
  destruct (Ascii.eqb c dot) eqn:Hc; [now constructor|].
  destruct (split_dot r) as [|h t]; [repeat constructor; simpl; now rewrite Hc|].
  apply Forall_cons in IH as [Hh Ht].
  constructor; [simpl; now rewrite Hc|exact Ht].
Qed.

Lemma join_split (s : string) : join_dot (split_dot s) = s.
Proof.
  induction s as [|c r IH]; [reflexivity|]. simpl.
  destruct (Ascii.eqb_spec c dot) as [->|_].
  - pose proof (split_dot_nonempty r) as Hne.
    destruct (split_dot r) as [|h t]; [congruence|].
    change (join_dot (EmptyString :: h :: t))
      with (EmptyString ++ String dot (join_dot (h :: t))).
    now rewrite IH.
  - pose proof (split_dot_nonempty r) as Hne.
    destruct (split_dot r) as [|h t]; [congruence|].
    destruct t as [|h' t]; simpl in *; now rewrite <- IH.
Qed.

Lemma join_dot_snoc (l : list string) (x : string) :
  l <> [] -> join_dot (l ++ [x]) = join_dot l ++ String dot x.
Proof.
  induction l as [|a l IH]; [congruence|]. intros _.
  destruct l as [|b l]; [reflexivity|].
  change (join_dot ((a :: b :: l) ++ [x]))
    with (a ++ String dot (join_dot ((b :: l) ++ [x]))).
  rewrite IH by discriminate.
  change (join_dot (a :: b :: l)) with (a ++ String dot (join_dot (b :: l))).
  now rewrite append_assoc.
Qed.

Lemma split_dot_snoc (s : string) :
  exists init leaf, split_dot s = (init ++ [leaf])%list.
Proof.
  destruct (split_dot s) as [|h t] eqn:E using rev_ind.
  - destruct (split_dot_nonempty s E).
  - eauto.
Qed.

Lemma comprehension_first_char_raise (l : list string) :
  In EmptyString l -> comprehension first_char l = Raise IndexError.
Proof.
  induction l as [|x l IH]; [intros []|]. intros [->|Hin]; [reflexivity|].
  simpl. destruct x as [|c x]; [reflexivity|]. simpl.
  now rewrite (IH Hin).
Qed.

Lemma not_in_nonempty (l : list string) :
  ~ In EmptyString l -> Forall (fun x => x <> EmptyString) l.
Proof.
  intros H. apply Forall_forall. intros x Hx ->.
  apply H. now apply list_elem_of_In.
Qed.

Lemma abbreviated_dotless (x : string) :
  has_dot x = false -> has_dot (abbreviated x) = false.
Proof.
  destruct x as [|c x]; [reflexivity|]. simpl. intros H.
  apply orb_false_elim in H as [Hc _]. now rewrite Hc.
Qed.

Lemma abbreviated_nonempty (x : string) :
  x <> EmptyString -> abbreviated x <> EmptyString.
Proof. destruct x; [congruence|discriminate]. Qed.

Lemma abbreviated_idem (x : string) :
  abbreviated (abbreviated x) = abbreviated x.
Proof. now destruct x. Qed.

(** The display name in mode "short", from the segments of the name. *)
Lemma short_name_eq (cls : formatter_class) (record : LogRecord)
    (init : list string) (leaf : string) :
  split_dot (name record) = (init ++ [leaf])%list ->
  _get_name (with_mode cls "short") record
  = (n ← comprehension first_char init; Ok (join_dot (n ++ [leaf]))).
Proof.
  intros Hs. unfold _get_name. simpl. rewrite Hs.
  now rewrite but_last_snoc, last_item_snoc.
Qed.

End Segments.

(** X1: in mode "leaf" the display name always resolves, whatever the
    record name: it is the part of the name after its last dot (the
    whole name when there is no dot), so it never contains a dot. *)
Theorem leaf_is_last_segment (cls : formatter_class) (record : LogRecord) :
  exists x,
    _get_name (with_mode cls "leaf") record = Ok x
    /\ has_dot x = false
    /\ (name record = x \/ exists p, name record = p ++ String dot x).
Proof.
  destruct (split_dot_snoc (name record)) as (init & leaf & Hs).
  exists leaf. unfold _get_name. simpl. rewrite Hs, last_item_snoc.
  split; [reflexivity|].
  pose proof (split_dot_dotless (name record)) as Hd. rewrite Hs in Hd.
  apply Forall_app in Hd as [_ Hd]. apply Forall_cons in Hd as [Hleaf _].
  split; [exact Hleaf|].
  pose proof (join_split (name record)) as Hj. rewrite Hs in Hj.
  destruct init as [|a init]; [left; now rewrite <- Hj|].
  right. exists (join_dot (a :: init)). rewrite <- Hj.
  apply join_dot_snoc. discriminate.
Qed.

(** X2: in mode "short" the display name fails with an [IndexError]
    exactly when a segment of the record name other than the last is
    empty (the name starts with a dot or has two dots in a row);
    otherwise it resolves. *)
Theorem short_fails_on_empty_segment (cls : formatter_class)
    (record : LogRecord) :
  (_get_name (with_mode cls "short") record = Raise IndexError
   <-> In EmptyString (but_last (split_dot (name record))))
  /\ (~ In EmptyString (but_last (split_dot (name record))) ->
      returns (_get_name (with_mode cls "short") record)).
Proof.
  destruct (split_dot_snoc (name record)) as (init & leaf & Hs).
  rewrite (short_name_eq cls record init leaf Hs), Hs, but_last_snoc.
  assert (Hok : ~ In EmptyString init ->
                comprehension first_char init = Ok (map abbreviated init)).
  { intros H. now apply comprehension_first_char, not_in_nonempty. }
  split; [split|].
  - intros Hr. destruct (in_dec string_dec EmptyString init) as [|Hn];
      [assumption|]. rewrite (Hok Hn) in Hr. discriminate Hr.
  - intros Hin. now rewrite (comprehension_first_char_raise init Hin).
  - intros Hn. rewrite (Hok Hn). eexists. reflexivity.
Qed.

Lemma short_fails_on_empty_segment_witness :
  returns (_get_name (with_mode CustomFormatter "short")
             (record_named "pkg.sub.mod" DEBUG "m")).
Proof.
  refine (proj2 (short_fails_on_empty_segment CustomFormatter
                   (record_named "pkg.sub.mod" DEBUG "m")) _).
  simpl. intros [H|[H|H]]; [discriminate H|discriminate H|exact H].
Defined.

(** X3: the mode "short" is idempotent: a display name it produces is
    displayed unchanged when it is itself the name of a record. *)
Theorem short_idempotent (cls cls' : formatter_class)
    (record record' : LogRecord) (n : string) :
  _get_name (with_mode cls "short") record = Ok n ->
  name record' = n ->
  _get_name (with_mode cls' "short") record' = Ok n.
Proof.
  destruct (split_dot_snoc (name record)) as (init & leaf & Hs).
  rewrite (short_name_eq cls record init leaf Hs).
  destruct (in_dec string_dec EmptyString init) as [Hin|Hn].
  { now rewrite (comprehension_first_char_raise init Hin). }
  pose proof (not_in_nonempty init Hn) as Hne.
  rewrite (comprehension_first_char init Hne). simpl. intros [= <-] Hname.
  pose proof (split_dot_dotless (name record)) as Hd. rewrite Hs in Hd.
  apply Forall_app in Hd as [Hinit Hleaf].
  assert (Hs' : split_dot (name record')
                = (map abbreviated init ++ [leaf])%list).
  { rewrite Hname. apply split_join; [destruct init; discriminate|].
    apply Forall_app. split; [|exact Hleaf].
    apply Forall_map. eapply Forall_impl; [exact Hinit|].
    intros x. apply abbreviated_dotless. }
  rewrite (short_name_eq cls' record' _ leaf Hs').
  rewrite comprehension_first_char.
  - simpl. rewrite map_map.
    rewrite (map_ext _ abbreviated abbreviated_idem). reflexivity.
  - apply Forall_map. eapply Forall_impl; [exact Hne|].
    intros x. apply abbreviated_nonempty.
Qed.

Lemma short_idempotent_witness :
  _get_name (with_mode ColorFormatter "short")
    (record_named "a.b.gamma" INFO "again")
  = Ok "a.b.gamma".
Proof.
  refine (short_idempotent CustomFormatter ColorFormatter
            (record_named "alpha.beta.gamma" INFO "first")
            (record_named "a.b.gamma" INFO "again") "a.b.gamma" _ _);
    reflexivity.
Defined.

(** * Line templates, continued *)

(** X4: at a standard level, when the display name resolves, [format]
    hands the package's formatter the line
    [%(asctime)s - NAME - %(levelname)s - %(message)s] with the display
    name put in once and as it is; the colour formatter puts the colour
    code of the level before it and the reset code after it, the plain
    formatter adds nothing. *)
Theorem format_line (Formatter_format : string -> LogRecord -> result string)
    (self : formatter) (record : LogRecord) (n c : string) :
  _get_name self record = Ok n ->
  In (levelno record, c) colours ->
  format Formatter_format self record
  = Formatter_format
      match fmt_class self with
      | CustomFormatter => line_template EmptyString n EmptyString
      | ColorFormatter => line_template c n reset
      end
      record.
Proof.
  intros Hn Hc. unfold format. rewrite Hn.
  unfold colours in Hc. simpl in Hc.
  destruct self as [cls mode]. unfold FORMATS. simpl fmt_class.
  repeat (destruct Hc as [[= <- <-]|Hc]; [destruct cls; reflexivity|]).
  destruct Hc.
Qed.

Lemma format_line_witness :
  format echo_line (with_mode ColorFormatter "leaf")
    (record_named "app.{name}" CRITICAL "down")
  = echo_line (line_template white_on_red "{name}" reset)
      (record_named "app.{name}" CRITICAL "down").
Proof.
  refine (format_line echo_line (with_mode ColorFormatter "leaf")
            (record_named "app.{name}" CRITICAL "down") "{name}"
            white_on_red _ _).
  - reflexivity.
  - do 4 right. left. reflexivity.
Defined.

(** * Module names, continued *)

Section Normalisation.

Lemma has_slash_cons (c : ascii) (r : string) :
  has_slash (String c r) = Ascii.eqb slash c || has_slash r.
Proof. reflexivity. Qed.

Lemma has_slash_app (a b : string) :
  has_slash (a ++ b) = has_slash a || has_slash b.
Proof.
  induction a as [|c a IH]; [reflexivity|].
  rewrite append_cons, !has_slash_cons, IH. now rewrite orb_assoc.
Qed.

Lemma replace_slash_no_slash (s : string) :
  has_slash (replace_slash s) = false.
Proof.
  induction s as [|c r IH]; [reflexivity|]. simpl replace_slash.
  rewrite has_slash_cons, IH, orb_false_r.
  destruct (Ascii.eqb_spec c slash) as [->|Hc]; [reflexivity|].
  apply Ascii.eqb_neq. congruence.
Qed.

Lemma replace_slash_id (s : string) :
  has_slash s = false -> replace_slash s = s.
Proof.
  induction s as [|c r IH]; [reflexivity|]. rewrite has_slash_cons.
  intros H. apply orb_false_elim in H as [Hc Hr]. simpl.
  rewrite Ascii.eqb_sym, Hc, (IH Hr). reflexivity.
Qed.

Lemma has_slash_lstrip (s : string) :
  has_slash s = false -> has_slash (lstrip s) = false.
Proof.
  induction s as [|c r IH]; [reflexivity|]. rewrite has_slash_cons.
  intros H. apply orb_false_elim in H as [Hc Hr]. simpl.
  destruct (strip_set c); [exact (IH Hr)|].
  now rewrite has_slash_cons, Hc, Hr.
Qed.

Lemma has_slash_rstrip (s : string) :
  has_slash s = false -> has_slash (rstrip s) = false.
Proof.
  induction s as [|c r IH]; [reflexivity|]. rewrite has_slash_cons.
  intros H. apply orb_false_elim in H as [Hc Hr]. simpl.
  specialize (IH Hr). destruct (rstrip r) as [|c' r'].
  - destruct (strip_set c); [reflexivity|].
    now rewrite has_slash_cons, Hc.
  - now rewrite has_slash_cons, Hc, IH.
Qed.

Lemma lstrip_length (s : string) :
  (String.length (lstrip s) <= String.length s)%nat.
Proof.
  induction s as [|c r IH]; [reflexivity|]. simpl.
  destruct (strip_set c); simpl; lia.
Qed.

Lemma lstrip_idem (s : string) : lstrip (lstrip s) = lstrip s.
Proof.
  induction s as [|c r IH]; [reflexivity|]. simpl.
  destruct (strip_set c) eqn:E; [exact IH|]. simpl. now rewrite E.
Qed.

Lemma rstrip_idem (s : string) : rstrip (rstrip s) = rstrip s.
Proof.
  induction s as [|c r IH]; [reflexivity|]. simpl.
  destruct (rstrip r) as [|c' r'] eqn:E.
  - destruct (strip_set c) eqn:Ec; [reflexivity|]. simpl. now rewrite Ec.
  - change (rstrip (String c (String c' r')))
      with (match rstrip (String c' r') with
            | EmptyString => if strip_set c then EmptyString
                             else String c EmptyString
            | r'' => String c r''
            end).
    now rewrite IH.
Qed.

(** The first character of a string that [lstrip] leaves alone. *)
Lemma lstrip_fixed_head (c : ascii) (r : string) :
  lstrip (String c r) = String c r -> strip_set c = false.
Proof.
  simpl. destruct (strip_set c); [|reflexivity]. intros H.
  pose proof (lstrip_length r) as Hl. rewrite H in Hl. simpl in Hl. lia.
Qed.

Lemma rstrip_head (c : ascii) (r : string) :
  strip_set c = false -> exists r', rstrip (String c r) = String c r'.
Proof.
  intros Hc. simpl. destruct (rstrip r); [rewrite Hc|]; eauto.
Qed.

Lemma lstrip_rstrip (s : string) :
  lstrip s = s -> lstrip (rstrip s) = rstrip s.
Proof.
  destruct s as [|c r]; [reflexivity|]. intros H.
  pose proof (lstrip_fixed_head c r H) as Hc.
  destruct (rstrip_head c r Hc) as [r' ->]. simpl. now rewrite Hc.
Qed.

Lemma strip_trimmed (s : string) : trimmed (strip s).
Proof.
  unfold trimmed, strip. split.
  - apply lstrip_rstrip, lstrip_idem.
  - apply rstrip_idem.
Qed.

Lemma strip_id (s : string) : trimmed s -> strip s = s.
Proof. intros [Hl Hr]. unfold strip. now rewrite Hl. Qed.

(** Every dotted name is in normal form. *)
Lemma dotted_normal (a : string) (p : list string) :
  has_slash (dotted a p) = false /\ trimmed (dotted a p).
Proof.
  unfold dotted. split; [|apply strip_trimmed]. unfold strip.
  apply has_slash_rstrip, has_slash_lstrip, replace_slash_no_slash.
Qed.

Lemma endswith_trimmed (s : string) :
  s <> EmptyString -> rstrip s = s -> endswith s "/" = false.
Proof.
  induction s as [|c r IH]; [congruence|]. intros _ H.
  destruct r as [|c' r'].
  - simpl in H. destruct (strip_set c) eqn:Hc; [discriminate H|].
    unfold endswith. simpl. apply strip_set_not_slash in Hc.
    unfold slash in Hc. destruct (Ascii.eqb_spec c "/"); [discriminate|].
    destruct (String.eqb_spec (String c EmptyString) "/"); congruence.
  - assert (Hr : rstrip (String c' r') = String c' r').
    { change (rstrip (String c (String c' r')))
        with (match rstrip (String c' r') with
              | EmptyString => if strip_set c then EmptyString
                               else String c EmptyString
              | r'' => String c r''
              end) in H.
      destruct (rstrip (String c' r')); [|congruence].
      destruct (strip_set c); discriminate H. }
    specialize (IH ltac:(discriminate) Hr).
    unfold endswith in IH |- *. simpl in IH |- *.
    now rewrite Nat.sub_0_r in IH.
Qed.

(** Two plain names join with a dot, one plain name is kept. *)
Lemma dotted_single (b : string) :
  plain_name b -> strip (replace_slash b) = b.
Proof.
  intros (_ & Hs & Ht). now rewrite (replace_slash_id b Hs), strip_id.
Qed.

Lemma dotted_pair (a b : string) :
  plain_name a -> plain_name b ->
  strip (replace_slash (PosixPath.join2 a b)) = a ++ "." ++ b.
Proof.
  intros (Ha & Has & Hal & Har) (Hb & Hbs & Hbl & Hbr).
  destruct a as [|ca a]; [congruence|]. destruct b as [|cb b]; [congruence|].
  pose proof (lstrip_fixed_head ca a Hal) as Hca.
  pose proof (lstrip_fixed_head cb b Hbl) as Hcb.
  unfold PosixPath.join2.
  rewrite (startswith_kept cb b Hcb). simpl orb.
  destruct (String.eqb_spec (String ca a) EmptyString); [discriminate|].
  rewrite (endswith_trimmed (String ca a) Ha Har).
  rewrite replace_slash_app, (replace_slash_id _ Has).
  change ("/" ++ String cb b) with (String slash (String cb b)).
  change (replace_slash (String slash (String cb b)))
    with (String dot (replace_slash (String cb b))).
  rewrite (replace_slash_id _ Hbs).
  change ("." ++ String cb b) with (String dot (String cb b)).
  unfold strip. rewrite append_cons.
  change (lstrip (String ca (a ++ String dot (String cb b))))
    with (if strip_set ca then lstrip (a ++ String dot (String cb b))
          else String ca (a ++ String dot (String cb b))).
  rewrite Hca, <- append_cons.
  change (String dot (String cb b)) with ("." ++ String cb b).
  rewrite <- append_assoc. rewrite rstrip_app; [reflexivity|discriminate|].
  exact Hbr.
Qed.

End Normalisation.

Section Stems.

Lemma basename_plain (f : string) :
  has_slash f = false -> PosixPath.basename f = f.
Proof.
  destruct f as [|c r]; [reflexivity|]. intros H.
  unfold PosixPath.basename. fold PosixPath.basename.
  fold (has_slash (String c r)). now rewrite H.
Qed.

Lemma basename_dir (d f : string) :
  has_slash f = false -> PosixPath.basename (d ++ "/" ++ f) = f.
Proof.
  intros Hf. induction d as [|c d IH].
  - change (EmptyString ++ "/" ++ f) with (String slash f).
    unfold PosixPath.basename. fold PosixPath.basename.
    fold (has_slash (String slash f)). rewrite has_slash_cons.
    rewrite Ascii.eqb_refl. simpl orb. now apply basename_plain.
  - rewrite append_cons.
    unfold PosixPath.basename. fold PosixPath.basename.
    fold (has_slash (String c (d ++ "/" ++ f))).
    rewrite has_slash_cons, has_slash_app.
    change (has_slash ("/" ++ f)) with (has_slash (String slash f)).
    rewrite has_slash_cons, Ascii.eqb_refl. simpl orb.
    rewrite orb_true_r, orb_true_r. exact IH.
Qed.

Lemma drop_str_app (s p : string) :
  drop_str (String.length s) (s ++ p) = p.
Proof.
  induction s as [|c s IH]; [now destruct p|].
  rewrite append_cons. exact IH.
Qed.

Lemma take_str_app (s p : string) :
  take_str (String.length s) (s ++ p) = s.
Proof.
  induction s as [|c s IH]; [now destruct p|].
  rewrite append_cons. simpl. now rewrite IH.
Qed.

Lemma endswith_app (s p : string) : endswith (s ++ p) p = true.
Proof.
  unfold endswith. rewrite append_length.
  replace (String.length s + String.length p - String.length p)%nat
    with (String.length s) by lia.
  rewrite drop_str_app, String.eqb_refl, andb_true_r.
  apply Nat.leb_le. lia.
Qed.

Lemma drop_last_app (s p : string) :
  drop_last (String.length p) (s ++ p) = s.
Proof.
  unfold drop_last. rewrite append_length.
  replace (String.length s + String.length p - String.length p)%nat
    with (String.length s) by lia.
  apply take_str_app.
Qed.

(** The stem of a [.py] file, with or without a directory. *)
Lemma file_stem_py (dir : option string) (stem : string) :
  has_slash stem = false ->
  file_stem (match dir with
             | Some d => d ++ "/" ++ stem ++ ".py"
             | None => stem ++ ".py"
             end) = stem.
Proof.
  intros Hs.
  assert (Hf : has_slash (stem ++ ".py") = false)
    by now rewrite has_slash_app, Hs.
  unfold file_stem.
  replace (PosixPath.basename _) with (stem ++ ".py").
  - now rewrite endswith_app, drop_last_app.
  - destruct dir as [d|]; [now rewrite basename_dir|now rewrite basename_plain].
Qed.

(** [_get_main_module_name] on a module with a file path. *)
Lemma main_module_name_eq (m : module) (prefix : string)
    (package : option string) (mfname : string) :
  __package__ m = Present package ->
  __file__ m = Present (Some mfname) ->
  _get_main_module_name m prefix
  = Ok (dotted prefix [default EmptyString package; file_stem mfname]).
Proof.
  intros Hp Hf. unfold _get_main_module_name. now rewrite Hp, Hf.
Qed.

End Stems.

(** X5: the name that [get_module_name] makes for a module, or for an
    entry point with a file path, is in normal form whatever the prefix
    and the names are: it has no path separator, and neither a dot nor
    a separator at either end. *)
Theorem module_name_normalised (m : module) (prefix r : string) :
  get_module_name (Some m) prefix = Ok r ->
  (__name__ m <> "__main__" \/ exists f, __file__ m = Present (Some f)) ->
  has_slash r = false /\ trimmed r.
Proof.
  unfold get_module_name.
  destruct (String.eqb_spec (__name__ m) "__main__") as [Hmain|Hother];
    simpl negb; cbv iota.
  - intros Hrun [Hn|[f Hf]]; [contradiction|].
    unfold _get_main_module_name in Hrun. rewrite Hf in Hrun.
    destruct (__package__ m) as [|package]; [discriminate Hrun|].
    simpl in Hrun. injection Hrun as <-. apply dotted_normal.
  - intros [= <-] _. apply dotted_normal.
Qed.

Lemma module_name_normalised_witness :
  has_slash "srv.app.pkg.mod" = false /\ trimmed "srv.app.pkg.mod".
Proof.
  refine (module_name_normalised
            {| __name__ := "pkg/mod."; __package__ := Present None;
               __file__ := Absent |}
            "/srv/app/" "srv.app.pkg.mod" _ _).
  - reflexivity.
  - left. discriminate.
Defined.

(** X6: for a module that is not the entry point and whose name is
    plain (not empty, no separator, no dot at either end),
    [get_module_name] returns the name itself under the empty prefix,
    and the prefix, a dot and the name under a plain prefix. *)
Theorem module_name_plain (m : module) :
  __name__ m <> "__main__" ->
  plain_name (__name__ m) ->
  get_module_name (Some m) EmptyString = Ok (__name__ m)
  /\ (forall prefix, plain_name prefix ->
        get_module_name (Some m) prefix
        = Ok (prefix ++ "." ++ __name__ m)).
Proof.
  intros Hother Hname. unfold get_module_name.
  apply String.eqb_neq in Hother. rewrite Hother. simpl negb. cbv iota.
  split.
  - unfold dotted, PosixPath.join. simpl fold_left.
    unfold PosixPath.join2. rewrite orb_true_r.
    now rewrite dotted_single.
  - intros prefix Hprefix. unfold dotted, PosixPath.join. simpl fold_left.
    now rewrite dotted_pair.
Qed.

Lemma module_name_plain_witness :
  get_module_name
    (Some {| __name__ := "pkg.sub.mod"; __package__ := Present (Some "pkg.sub");
             __file__ := Present (Some "/srv/pkg/sub/mod.py") |})
    "app"
  = Ok "app.pkg.sub.mod".
Proof.
  refine (proj2 (module_name_plain
            {| __name__ := "pkg.sub.mod";
               __package__ := Present (Some "pkg.sub");
               __file__ := Present (Some "/srv/pkg/sub/mod.py") |} _ _)
            "app" _).
  - discriminate.
  - repeat split; (reflexivity || discriminate).
  - repeat split; (reflexivity || discriminate).
Defined.

(** X7: an entry point run from a [.py] file is named after the stem of
    the file, whatever directory the file is in: under the empty prefix
    a plain stem is returned as it is when the module has no package, and
    after the package and a dot when the package is plain.  This holds
    for the stems "__init__" and "__main__" as for any other. *)
Theorem entry_point_name (dir package : option string) (stem : string) :
  plain_name stem ->
  let mfname :=
    match dir with
    | Some d => d ++ "/" ++ stem ++ ".py"
    | None => stem ++ ".py"
    end in
  let m := main_module package (Some mfname) in
  let pkg := default EmptyString package in
  (pkg = EmptyString -> get_module_name (Some m) EmptyString = Ok stem)
  /\ (plain_name pkg ->
      get_module_name (Some m) EmptyString = Ok (pkg ++ "." ++ stem)).
Proof.
  intros Hstem mfname m pkg.
  assert (Hrun : get_module_name (Some m) EmptyString
                 = Ok (dotted EmptyString [pkg; stem])).
  { change (get_module_name (Some m) EmptyString)
      with (_get_main_module_name m EmptyString).
    rewrite (main_module_name_eq m EmptyString package mfname eq_refl eq_refl).
    unfold mfname.
    now rewrite (file_stem_py dir stem (proj1 (proj2 Hstem))). }
  rewrite Hrun. unfold dotted, PosixPath.join. simpl fold_left. split.
  - intros ->. unfold PosixPath.join2 at 2. simpl.
    unfold PosixPath.join2. rewrite orb_true_r.
    now rewrite dotted_single.
  - intros Hpkg. unfold PosixPath.join2 at 2. rewrite orb_true_r.
    now rewrite dotted_pair.
Qed.

Lemma entry_point_name_witness :
  get_module_name
    (Some (main_module (Some "tools") (Some "/opt/tools/__main__.py")))
    EmptyString
  = Ok "tools.__main__".
Proof.
  refine (proj2 (entry_point_name (Some "/opt/tools") (Some "tools")
                   "__main__" _) _);
    repeat split; (reflexivity || discriminate).
Defined.

(** * Levels, continued *)

Section Fallback.

Variable import_environ : gmap string string.

Lemma lookup_update_ne (f : Logger -> Logger) (st : State)
    (l l' : logger_ref) :
  l' <> l -> lookup_logger (update_logger f l st) l' = lookup_logger st l'.
Proof.
  intros Hne. destruct l as [|k], l' as [|k']; simpl; try reflexivity.
  - congruence.
  - apply lookup_alter_ne. congruence.
Qed.

Lemma emitted_warning (st : State) (l : logger_ref) (m : string) :
  emitted (warning st l m)
  = (emitted st
     ++ if isEnabledFor st l WARNING
        then [{| name := logger_name l; levelno := WARNING; msg := m |}]
        else [])%list.
Proof.
  unfold warning. destruct (isEnabledFor st l WARNING); [reflexivity|].
  now rewrite app_nil_r.
Qed.

(** A logger with a level of its own lets warnings through exactly when
    that level is at most [WARNING]. *)
Lemma enabled_own_level (st : State) (l : logger_ref) (n : Z) :
  level_of st l = Some n -> n <> 0 ->
  isEnabledFor st l WARNING = (n <=? WARNING).
Proof.
  intros Hl Hn. unfold isEnabledFor.
  rewrite (effective_own_level st l n Hl Hn).
  unfold level_of in Hl. destruct (lookup_logger st l); [|discriminate].
  rewrite Z.geb_leb. reflexivity.
Qed.

(** The state that [set_log_level] returns, case by case. *)
Lemma set_log_level_cases (st st' : State) (l : logger_ref) (s : string) :
  set_log_level import_environ st l s = Ok st' ->
  (exists n, _nameToLevel !! upper s = Some n
     /\ st' = update_logger (with_level n) l st)
  \/ (exists n, _nameToLevel !! upper s = None
        /\ _nameToLevel !! DEFAULT_LOG_LEVEL import_environ = Some n
        /\ st' = warning (update_logger (with_level n) l st) l
                   (unknown_level_msg (upper s)))
  \/ (_nameToLevel !! upper s = None
      /\ _nameToLevel !! DEFAULT_LOG_LEVEL import_environ = None
      /\ st' = warning
                 (warning (update_logger (with_level WARNING) l st) l
                    (unknown_level_msg (DEFAULT_LOG_LEVEL import_environ)))
                 l (unknown_level_msg (upper s))).
Proof.
  destruct (_nameToLevel !! upper s) as [n|] eqn:Hreq.
  - rewrite (requested_known _ _ _ _ n Hreq). intros [= <-]. left. eauto.
  - rewrite (requested_unknown _ _ _ _ Hreq).
    destruct (_nameToLevel !! DEFAULT_LOG_LEVEL import_environ)
      as [n|] eqn:Hdef.
    + rewrite (default_known _ _ _ n Hdef). intros [= <-].
      right; left. eauto.
    + rewrite (default_unknown _ _ _ Hdef). intros [= <-].
      right; right. eauto.
Qed.

End Fallback.

(** X8: [set_log_level] changes the level of the given handle and
    nothing else of the registry: every sink and every other logger is
    as before, and what it logs is at most two records, each a warning
    in the name of the handle. *)
Theorem set_log_level_frame (import_environ : gmap string string)
    (st st' : State) (log : logger_ref) (lvl_str : string) :
  set_log_level import_environ st log lvl_str = Ok st' ->
  wiring st' = wiring st
  /\ (forall l', l' <> log -> lookup_logger st' l' = lookup_logger st l')
  /\ (length (new_records st st') <= 2)%nat
  /\ Forall (fun r => name r = logger_name log /\ levelno r = WARNING)
       (new_records st st')
  /\ emitted st' = (emitted st ++ new_records st st')%list.
Proof.
  intros Hrun. split; [exact (wiring_set_log_level _ _ _ _ _ Hrun)|].
  unfold new_records.
  destruct (set_log_level_cases _ _ _ _ _ Hrun)
    as [(n & _ & ->)|[(n & _ & _ & ->)|(_ & _ & ->)]].
  - split; [intros l' Hl'; now apply lookup_update_ne|].
    rewrite emitted_update, drop_all, app_nil_r. simpl.
    repeat split; [lia|constructor].
  - split; [intros l' Hl'; rewrite lookup_warning;
            now apply lookup_update_ne|].
    rewrite emitted_warning, emitted_update, drop_app_length.
    destruct (isEnabledFor _ log WARNING); simpl;
      repeat split; try lia; repeat constructor.
  - split; [intros l' Hl'; rewrite !lookup_warning;
            now apply lookup_update_ne|].
    rewrite !emitted_warning, emitted_update, <- app_assoc,
      drop_app_length.
    do 2 destruct (isEnabledFor _ log WARNING); simpl;
      repeat split; try lia; repeat constructor.
Qed.

Lemma set_log_level_frame_witness :
  lookup_logger
    (update_logger (with_level DEBUG) (Registered "db")
       (snd (getLogger (snd (getLogger initial "app")) "db")))
    (Registered "app")
  = lookup_logger (snd (getLogger (snd (getLogger initial "app")) "db"))
      (Registered "app").
Proof.
  refine (proj1 (proj2 (set_log_level_frame ∅
                          (snd (getLogger (snd (getLogger initial "app"))
                                  "db"))
                          _ (Registered "db") "debug" eq_refl))
            (Registered "app") _).
  discriminate.
Defined.

(** X9: when the requested string names no level and the default of the
    environment names the level [n], [set_log_level] leaves the handle
    at [n]; the warning about the request is emitted when [n] is at most
    [WARNING] and is lost when [n] is above it ([ERROR], [CRITICAL]). *)
Theorem unknown_request_known_default (import_environ : gmap string string)
    (st : State) (log : logger_ref) (lvl_str : string) (n : Z) :
  _nameToLevel !! upper lvl_str = None ->
  _nameToLevel !! DEFAULT_LOG_LEVEL import_environ = Some n ->
  n <> NOTSET ->
  is_Some (lookup_logger st log) ->
  exists st',
    set_log_level import_environ st log lvl_str = Ok st'
    /\ level_of st' log = Some n
    /\ new_records st st'
       = if n <=? WARNING
         then [unknown_level_record log (upper lvl_str)]
         else [].
Proof.
  intros Hreq Hdef Hn Hlog.
  rewrite (requested_unknown _ _ _ _ Hreq), (default_known _ _ _ n Hdef).
  eexists. split; [reflexivity|].
  pose proof (level_of_update st log n Hlog) as Hl.
  split; [unfold level_of; now rewrite lookup_warning|].
  unfold new_records.
  rewrite emitted_warning, (enabled_own_level _ _ n Hl Hn),
    emitted_update, drop_app_length.
  reflexivity.
Qed.

Lemma unknown_request_known_default_witness :
  exists st',
    set_log_level (<["DEFAULT_LOG_LEVEL" := "error"]> ∅) initial RootLogger
      "loud" = Ok st'
    /\ level_of st' RootLogger = Some ERROR
    /\ new_records initial st' = [].
Proof.
  refine (unknown_request_known_default
            (<["DEFAULT_LOG_LEVEL" := "error"]> ∅) initial RootLogger
            "loud" ERROR _ _ _ _).
  - reflexivity.
  - reflexivity.
  - discriminate.
  - vm_compute. eauto.
Defined.

(** X10: when [DEFAULT_LOG_LEVEL] was not set in the environment at
    import, a requested string that names no level leaves the handle at
    [INFO], and exactly one warning, about the request, is emitted. *)
Theorem unknown_request_default_unset (import_environ : gmap string string)
    (st : State) (log : logger_ref) (lvl_str : string) :
  import_environ !! "DEFAULT_LOG_LEVEL" = None ->
  _nameToLevel !! upper lvl_str = None ->
  is_Some (lookup_logger st log) ->
  exists st',
    set_log_level import_environ st log lvl_str = Ok st'
    /\ level_of st' log = Some INFO
    /\ new_records st st' = [unknown_level_record log (upper lvl_str)].
Proof.
  intros Henv Hreq Hlog.
  assert (Hdef : _nameToLevel !! DEFAULT_LOG_LEVEL import_environ
                 = Some INFO).
  { unfold DEFAULT_LOG_LEVEL, getenv. now rewrite Henv. }
  rewrite (requested_unknown _ _ _ _ Hreq), (default_known _ _ _ _ Hdef).
  eexists. split; [reflexivity|].
  pose proof (level_of_update st log INFO Hlog) as Hl.
  split; [unfold level_of; now rewrite lookup_warning|].
  unfold new_records.
  rewrite emitted_warning,
    (enabled_own_level _ _ INFO Hl ltac:(discriminate)),
    emitted_update, drop_app_length.
  reflexivity.
Qed.

Lemma unknown_request_default_unset_witness :
  exists st',
    set_log_level ∅ initial RootLogger "verbose" = Ok st'
    /\ level_of st' RootLogger = Some INFO
    /\ new_records initial st'
       = [unknown_level_record RootLogger "VERBOSE"].
Proof.
  refine (unknown_request_default_unset ∅ initial RootLogger "verbose"
            _ _ _).
  - reflexivity.
  - reflexivity.
  - vm_compute. eauto.
Defined.

(** * The hierarchy

    The [parent] links stay in order: [getLogger] links a new logger to
    the root or to a logger with a shorter name, and nothing else of the
    module touches the links. *)

Section Hierarchy.

Variable import_environ : gmap string string.

Lemma same_links_refl (st : State) : same_links st st.
Proof. repeat split; auto. Qed.












End Hierarchy.

(** * The registry, continued *)

Section Registry.

Variable import_environ : gmap string string.

Lemma requested_level_eq (environ : gmap string string) (lvl_str : string)
    (lvl_env : option string) :
  match lvl_env with
  | Some v =>
      if negb (String.eqb v EmptyString)
      then getenv environ v (DEFAULT_LOG_LEVEL import_environ)
      else lvl_str
  | None => lvl_str
  end = requested_level import_environ environ lvl_str lvl_env.
Proof.
  unfold requested_level. destruct lvl_env as [v|]; [|reflexivity].
  now destruct (String.eqb v EmptyString).
Qed.

(** [get_logger] when the guard finds a sink: only the level is set. *)
Lemma get_logger_guard_eq (environ : gmap string string) (fs : FileSystem)
    (st : State) (name lvl_str : string) (lvl_env : option string)
    (root_logger logpath namemode : string) :
  hasHandlers (snd (getLogger st name)) (ref_of name) = true ->
  exists st3,
    set_log_level import_environ (snd (getLogger st name)) (ref_of name)
      (requested_level import_environ environ lvl_str lvl_env)
    = Ok st3
    /\ get_logger import_environ environ fs st name lvl_str lvl_env
         root_logger logpath namemode
       = (Ok (ref_of name), st3).
Proof.
  intros Hg.
  destruct (set_log_level_returns import_environ
              (snd (getLogger st name)) (ref_of name)
              (requested_level import_environ environ lvl_str lvl_env))
    as [st3 Hrun].
  exists st3. split; [exact Hrun|].
  unfold get_logger. rewrite (getLogger_pair st name), Hg.
  cbn [negb]. now rewrite requested_level_eq, Hrun.
Qed.

(** [get_logger] when the guard finds none: root initialisation runs
    first, and its failure is the failure of the call. *)
Lemma get_logger_init_eq (environ : gmap string string) (fs : FileSystem)
    (st : State) (name lvl_str : string) (lvl_env : option string)
    (root_logger logpath namemode : string) :
  hasHandlers (snd (getLogger st name)) (ref_of name) = false ->
  let st2 :=
    snd (init_root_logger fs (snd (getLogger st name)) root_logger logpath
           namemode) in
  (init_result fs logpath = Raise OSError
   /\ get_logger import_environ environ fs st name lvl_str lvl_env
        root_logger logpath namemode
      = (Raise OSError, st2))
  \/ (init_result fs logpath = Ok tt
      /\ exists st3,
           set_log_level import_environ (snd (getLogger st2 name))
             (ref_of name)
             (requested_level import_environ environ lvl_str lvl_env)
           = Ok st3
           /\ get_logger import_environ environ fs st name lvl_str lvl_env
                root_logger logpath namemode
              = (Ok (ref_of name), st3)).
Proof.
  intros Hg st2.
  pose proof (init_root_logger_result fs (snd (getLogger st name))
                root_logger logpath namemode) as Hres.
  unfold get_logger. rewrite (getLogger_pair st name), Hg. cbn [negb].
  fold st2.
  destruct (init_root_logger fs (snd (getLogger st name)) root_logger
              logpath namemode) as [r s2] eqn:Hinit.
  simpl in Hres, st2. subst r. unfold st2.
  unfold init_result.
  destruct (negb (String.eqb logpath EmptyString)
            && negb (file_opens fs logpath)).
  - left. split; reflexivity.
  - right. split; [reflexivity|].
    destruct (set_log_level_returns import_environ
                (snd (getLogger s2 name)) (ref_of name)
                (requested_level import_environ environ lvl_str lvl_env))
      as [st3 Hrun].
    exists st3. split; [exact Hrun|].
    rewrite (getLogger_pair s2 name).
    now rewrite requested_level_eq, Hrun.
Qed.


(** A property of the registry that [getLogger], [set_log_level] and
    root initialisation keep is kept by [get_logger]. *)
Lemma get_logger_preserves (P : State -> Prop)
    (environ : gmap string string) (fs : FileSystem) (st : State)
    (name lvl_str : string) (lvl_env : option string)
    (root_logger logpath namemode : string) :
  (forall s n, P s -> P (snd (getLogger s n))) ->
  (forall s s' l v, set_log_level import_environ s l v = Ok s' ->
     P s -> P s') ->
  (forall s, P s ->
     P (snd (init_root_logger fs s root_logger logpath namemode))) ->
  P st ->
  P (snd (get_logger import_environ environ fs st name lvl_str lvl_env
            root_logger logpath namemode)).
Proof.
  intros Hget Hset Hinit Hst.
  destruct (hasHandlers (snd (getLogger st name)) (ref_of name)) eqn:Hg.
  - destruct (get_logger_guard_eq environ fs st name lvl_str lvl_env
                root_logger logpath namemode Hg) as (st3 & Hrun & ->).
    exact (Hset _ _ _ _ Hrun (Hget _ _ Hst)).
  - destruct (get_logger_init_eq environ fs st name lvl_str lvl_env
                root_logger logpath namemode Hg)
      as [(_ & ->)|(_ & st3 & Hrun & ->)]; simpl.
    + apply Hinit, Hget, Hst.
    + exact (Hset _ _ _ _ Hrun (Hget _ _ (Hinit _ (Hget _ _ Hst)))).
Qed.










End Registry.



(** X12: when the logger of [name], or an ancestor that it propagates
    to, already has a sink, [get_logger] attaches nothing: apart from
    registering [name], the sinks of the registry are as before,
    whatever [root_logger], [logpath] and [namemode] are. *)
Theorem get_logger_guard_hit (import_environ environ : gmap string string)
    (fs : FileSystem) (st : State) (name lvl_str : string)
    (lvl_env : option string) (root_logger logpath namemode : string) :
  hasHandlers (snd (getLogger st name)) (ref_of name) = true ->
  exists st',
    get_logger import_environ environ fs st name lvl_str lvl_env root_logger
      logpath namemode
    = (Ok (ref_of name), st')
    /\ wiring st' = wiring (snd (getLogger st name)).
Proof.
  intros Hg.
  destruct (get_logger_guard_eq import_environ environ fs st name lvl_str
              lvl_env root_logger logpath namemode Hg)
    as (st3 & Hrun & Heq).
  exists st3. split; [exact Heq|].
  exact (wiring_set_log_level _ _ _ _ _ Hrun).
Qed.

Lemma get_logger_guard_hit_witness :
  exists st',
    get_logger ∅ ∅ sample_fs
      (addHandler initial RootLogger (console_sink 0 "leaf"))
      "app" "INFO" None "other" "/nonexistent-dir/x.log" "full"
    = (Ok (ref_of "app"), st')
    /\ wiring st'
       = wiring (snd (getLogger
                        (addHandler initial RootLogger
                           (console_sink 0 "leaf")) "app")).
Proof.
  refine (get_logger_guard_hit ∅ ∅ sample_fs
            (addHandler initial RootLogger (console_sink 0 "leaf"))
            "app" "INFO" None "other" "/nonexistent-dir/x.log" "full" _).
  reflexivity.
Defined.





(** C3 at a root name that is not an ancestor of the logger: the guard
    looks for sinks on the way from "worker" to the root of the
    hierarchy, where the sinks of "app" are never seen, so the second
    call attaches a second console sink to "app"; the sinks are not
    attached once, as they are with the default root.  Both calls
    return, in every file system. *)
Lemma get_logger_reattaches (fs : FileSystem) :
  let r1 := get_logger ∅ ∅ fs initial "worker" "INFO" None "app"
              EmptyString "leaf" in
  let r2 := get_logger ∅ ∅ fs (snd r1) "worker" "INFO" None "app"
              EmptyString "leaf" in
  (fst r1, fst r2,
   length <$> sinks (snd r1) (Registered "app"),
   length <$> sinks (snd r2) (Registered "app"))
  = (Ok (Registered "worker"), Ok (Registered "worker"),
     Some 1%nat, Some 2%nat).
Proof. reflexivity. Qed.

(** * A named root *)

Section NamedRoot.

Variable import_environ : gmap string string.



End NamedRoot.



(** * The default level *)

(** X15: [set_default_log_level] never raises.  When the default of the
    environment names the level [n] the handle is set to [n] and nothing
    is logged; otherwise the handle is set to the system level [WARNING]
    and exactly one warning, naming the unknown default, is emitted. *)
Theorem set_default_log_level_policy (import_environ : gmap string string)
    (st : State) (log : logger_ref) :
  is_Some (lookup_logger st log) ->
  exists st',
    set_default_log_level import_environ st log = Ok st'
    /\ match _nameToLevel !! DEFAULT_LOG_LEVEL import_environ with
       | Some n => level_of st' log = Some n /\ new_records st st' = []
       | None =>
           level_of st' log = Some WARNING
           /\ new_records st st'
              = [unknown_level_record log
                   (DEFAULT_LOG_LEVEL import_environ)]
       end.
Proof.
  intros Hlog.
  destruct (_nameToLevel !! DEFAULT_LOG_LEVEL import_environ)
    as [n|] eqn:Hdef.
  - rewrite (default_known _ _ _ n Hdef). eexists. split; [reflexivity|].
    split; [now apply level_of_update|].
    unfold new_records. rewrite emitted_update. apply drop_all.
  - rewrite (default_unknown _ _ _ Hdef). eexists. split; [reflexivity|].
    pose proof (level_of_update st log WARNING Hlog) as Hl.
    split; [unfold level_of; now rewrite lookup_warning|].
    unfold new_records.
    rewrite (warning_emitted _ _ _ Hl), emitted_update.
    now rewrite drop_app_length.
Qed.

Lemma set_default_log_level_policy_witness :
  exists st',
    set_default_log_level (<["DEFAULT_LOG_LEVEL" := "trace"]> ∅) initial
      RootLogger = Ok st'
    /\ level_of st' RootLogger = Some WARNING
    /\ new_records initial st' = [unknown_level_record RootLogger "TRACE"].
Proof.
  refine (set_default_log_level_policy
            (<["DEFAULT_LOG_LEVEL" := "trace"]> ∅) initial RootLogger _).
  vm_compute. eauto.
Defined.

(** X16: a record name without a dot is displayed as it is by every
    formatter, whatever its name mode. *)
Theorem dotless_name_unchanged (self : formatter) (record : LogRecord) :
  has_dot (name record) = false ->
  _get_name self record = Ok (name record).
Proof.
  intros Hd. unfold _get_name.
  rewrite (split_dot_segment (name record) Hd).
  destruct (String.eqb (name_mode self) "leaf"); [reflexivity|].
  destruct (String.eqb (name_mode self) "full"); [reflexivity|].
  destruct (String.eqb (name_mode self) "short"); reflexivity.
Qed.

Lemma dotless_name_unchanged_witness :
  _get_name (with_mode ColorFormatter "short")
    (record_named "root" WARNING "m")
  = Ok "root".
Proof.
  exact (dotless_name_unchanged (with_mode ColorFormatter "short")
           (record_named "root" WARNING "m") eq_refl).
Defined.

(** * The first call *)

Section FirstCall.

Variable import_environ : gmap string string.





End FirstCall.





(** * Handler identities

    [fresh_ids] holds of the initial registry and is kept by every
    operation of the module. *)

Section Identities.

Variable import_environ : gmap string string.

Lemma fresh_update (f : Logger -> Logger) (n : nat) (st : State)
    (l : logger_ref) :
  (forall x, Forall (fun h => (hid h < n)%nat) (handlers x) ->
             Forall (fun h => (hid h < n)%nat) (handlers (f x))) ->
  next_hid st = n -> fresh_ids st -> fresh_ids (update_logger f l st).
Proof.
  intros Hf Hn Hst l' y.
  assert (Hnext : next_hid (update_logger f l st) = n)
    by (destruct l; exact Hn).
  rewrite Hnext. rewrite <- Hn in Hf |- *.
  destruct l as [|k], l' as [|k']; simpl.
  - intros [= <-]. apply Hf, (Hst RootLogger). reflexivity.
  - apply (Hst (Registered k')).
  - apply (Hst RootLogger).
  - destruct (decide (k = k')) as [->|Hne].
    + rewrite lookup_alter_eq.
      destruct (loggerDict st !! k') as [x|] eqn:E; [|discriminate].
      intros [= <-]. apply Hf, (Hst (Registered k')). exact E.
    + rewrite lookup_alter_ne by exact Hne. apply (Hst (Registered k')).
Qed.

Lemma fresh_with_level (st : State) (l : logger_ref) (n : Z) :
  fresh_ids st -> fresh_ids (update_logger (with_level n) l st).
Proof. apply (fresh_update _ (next_hid st)); auto. Qed.

Lemma fresh_warning (st : State) (l : logger_ref) (m : string) :
  fresh_ids st -> fresh_ids (warning st l m).
Proof.
  intros Hst. unfold warning.
  destruct (isEnabledFor st l WARNING); [|exact Hst].
  intros [|k] y; [apply (Hst RootLogger)|apply (Hst (Registered k))].
Qed.

Lemma fresh_allocate (st : State) :
  fresh_ids st -> fresh_ids (allocate st).
Proof.
  intros Hst l y Hy. rewrite lookup_allocate in Hy.
  eapply Forall_impl; [exact (Hst l y Hy)|]. simpl. intros; lia.
Qed.

Lemma fresh_addHandler (st : State) (l : logger_ref) (h : Handler) :
  (hid h < next_hid st)%nat -> fresh_ids st ->
  fresh_ids (addHandler st l h).
Proof.
  intros Hh. apply (fresh_update _ (next_hid st)); [|reflexivity].
  intros x Hx. unfold with_handler. destruct (attached h x); [exact Hx|].
  simpl. apply Forall_app. split; [exact Hx|]. now repeat constructor.
Qed.

Lemma fresh_set_log_level (st st' : State) (l : logger_ref)
    (lvl_str : string) :
  set_log_level import_environ st l lvl_str = Ok st' ->
  fresh_ids st -> fresh_ids st'.
Proof.
  intros Hrun Hst.
  destruct (set_log_level_cases _ _ _ _ _ Hrun)
    as [(n & _ & ->)|[(n & _ & _ & ->)|(_ & _ & ->)]].
  - now apply fresh_with_level.
  - now apply fresh_warning, fresh_with_level.
  - now apply fresh_warning, fresh_warning, fresh_with_level.
Qed.

Lemma fresh_init_root_logger (fs : FileSystem) (st : State)
    (root_name logpath namemode : string) :
  fresh_ids st ->
  fresh_ids (snd (init_root_logger fs st root_name logpath namemode)).
Proof.
  rewrite init_root_logger_eq. cbn zeta. intros Hst.
  pose proof (getLogger_fresh st root_name Hst) as H1.
  pose proof (getLogger_next_hid st root_name) as Hid.
  set (st1 := snd (getLogger st root_name)) in *.
  set (st4 := addHandler _ _ (console_sink _ _)).
  assert (H4 : fresh_ids st4).
  { apply fresh_addHandler.
    - simpl. rewrite next_hid_update, Hid. lia.
    - now apply fresh_allocate, fresh_with_level. }
  destruct (String.eqb logpath EmptyString); [exact H4|].
  destruct (file_opens fs logpath); [|exact H4].
  cbn [snd]. apply fresh_addHandler; [|now apply fresh_allocate].
  simpl. unfold st4. rewrite next_hid_addHandler. simpl.
  rewrite next_hid_update, Hid. lia.
Qed.

(** [get_logger] keeps handler identities fresh, whatever its
    result. *)
Lemma fresh_get_logger (environ : gmap string string) (fs : FileSystem)
    (st : State) (name lvl_str : string) (lvl_env : option string)
    (root_logger logpath namemode : string) :
  fresh_ids st ->
  fresh_ids (snd (get_logger import_environ environ fs st name lvl_str
                    lvl_env root_logger logpath namemode)).
Proof.
  apply (get_logger_preserves import_environ fresh_ids).
  - intros s n. apply getLogger_fresh.
  - intros s s' l v. apply fresh_set_log_level.
  - intros s. apply fresh_init_root_logger.
Qed.

End Identities.
